(** * Violoncello (KaiOS text browser): a shallow embedding of [src/app.js]

    The development follows the layout of the program:

    - JavaScript string helpers used by the program ([includes],
      [startsWith], [trim], [toLowerCase], [encodeURIComponent], [parseInt]);
    - the platform services the program calls but does not define
      ([new URL], [URLSearchParams], [decodeURIComponent], [DOMParser],
      [XMLHttpRequest.open]) as a type class [Platform];
    - the DOM tree and the scraper of [loadPage];
    - the global state of the program and [loadPage] itself, split at its
      single [await] into [loadPage] (up to [xhr.send()]) and
      [loadPage_resume] (from the settled promise on);
    - [getSortedLinks], [handleUrlSubmit] and the Backspace path of the
      [keydown] listener.

    Strings are Rocq strings, read as the UTF-8 bytes of the JavaScript
    string (a string with an unpaired surrogate has no such bytes and is
    not covered).  The characters the program itself tests for are ASCII;
    the white space that [trim] and [parseInt] skip is not, and is given
    by its bytes. *)

From stdpp Require Import gmap strings list sorting.
From Stdlib Require Import ZArith Lia String Ascii.
From Stdlib Require QArith Qabs.

Local Open Scope string_scope.

(** ** JavaScript string helpers

    White space is what [trim] and [parseInt] skip, the code points of
    WhiteSpace and LineTerminator in ECMAScript: the six of one byte
    (tab, line feed, vertical tab, form feed, carriage return, space),
    U+00A0 of two bytes, and U+1680, U+2000 to U+200A, U+2028, U+2029,
    U+202F, U+205F, U+3000 and U+FEFF of three bytes. *)

Definition isWhiteSpace (c : ascii) : bool :=
  let n := nat_of_ascii c in
  Nat.eqb n 9 || Nat.eqb n 10 || Nat.eqb n 11 || Nat.eqb n 12
  || Nat.eqb n 13 || Nat.eqb n 32.

(** U+00A0 is [C2 A0]. *)
Definition isWhiteSpace2 (c1 c2 : ascii) : bool :=
  Nat.eqb (nat_of_ascii c1) 194 && Nat.eqb (nat_of_ascii c2) 160.

(** U+1680 is [E1 9A 80]; U+2000 to U+200A are [E2 80 80] to [E2 80 8A];
    U+2028, U+2029 and U+202F are [E2 80 A8], [E2 80 A9] and [E2 80 AF];
    U+205F is [E2 81 9F]; U+3000 is [E3 80 80]; U+FEFF is [EF BB BF]. *)
Definition isWhiteSpace3 (c1 c2 c3 : ascii) : bool :=
  let a := nat_of_ascii c1 in
  let b := nat_of_ascii c2 in
  let c := nat_of_ascii c3 in
  Nat.eqb a 225 && Nat.eqb b 154 && Nat.eqb c 128
  || Nat.eqb a 226 && Nat.eqb b 128
     && (Nat.leb 128 c && Nat.leb c 138
         || Nat.eqb c 168 || Nat.eqb c 169 || Nat.eqb c 175)
  || Nat.eqb a 226 && Nat.eqb b 129 && Nat.eqb c 159
  || Nat.eqb a 227 && Nat.eqb b 128 && Nat.eqb c 128
  || Nat.eqb a 239 && Nat.eqb b 187 && Nat.eqb c 191.

Definition lowerChar (c : ascii) : ascii :=
  let n := nat_of_ascii c in
  if Nat.leb 65 n && Nat.leb n 90 then ascii_of_nat (n + 32) else c.

Definition upperChar (c : ascii) : ascii :=
  let n := nat_of_ascii c in
  if Nat.leb 97 n && Nat.leb n 122 then ascii_of_nat (n - 32) else c.

Fixpoint toLowerCase (s : string) : string :=
  match s with
  | EmptyString => EmptyString
  | String c s' => String (lowerChar c) (toLowerCase s')
  end.

Fixpoint toUpperCase (s : string) : string :=
  match s with
  | EmptyString => EmptyString
  | String c s' => String (upperChar c) (toUpperCase s')
  end.

(** [s.startsWith(p)] *)
Definition startsWith (s p : string) : bool := String.prefix p s.

(** [s.includes(sub)] *)
Fixpoint includes (s sub : string) : bool :=
  String.prefix sub s
  || match s with
     | EmptyString => false
     | String _ s' => includes s' sub
     end.

(** The string without the white space it starts with.  With [backwards]
    the bytes of [s] are read as those of a string from its end, so the
    bytes of a code point come last byte first. *)
Fixpoint skipWhiteSpace (backwards : bool) (s : string) : string :=
  match s with
  | EmptyString => EmptyString
  | String c1 s1 =>
      if isWhiteSpace c1 then skipWhiteSpace backwards s1
      else
        match s1 with
        | EmptyString => s
        | String c2 s2 =>
            if (if backwards then isWhiteSpace2 c2 c1 else isWhiteSpace2 c1 c2)
            then skipWhiteSpace backwards s2
            else
              match s2 with
              | EmptyString => s
              | String c3 s3 =>
                  if (if backwards then isWhiteSpace3 c3 c2 c1
                      else isWhiteSpace3 c1 c2 c3)
                  then skipWhiteSpace backwards s3
                  else s
              end
        end
  end.

(** [s.trimStart()] *)
Definition trimStart (s : string) : string := skipWhiteSpace false s.

(** [s.trimEnd()] *)
Definition trimEnd (s : string) : string :=
  String.rev (skipWhiteSpace true (String.rev s)).

(** [s.trim()] *)
Definition trim (s : string) : string := trimEnd (trimStart s).

(** A JavaScript string in a boolean position: only [""] is falsy. *)
Definition truthy (s : string) : bool := negb (String.eqb s EmptyString).

(** [/^on/i.test(name)] *)
Definition isEventHandlerName (name : string) : bool :=
  match name with
  | String c1 (String c2 _) =>
      Ascii.eqb (lowerChar c1) "o"%char && Ascii.eqb (lowerChar c2) "n"%char
  | _ => false
  end.

(** *** [encodeURIComponent]

    On the UTF-8 bytes of a string, [encodeURIComponent] keeps the
    unreserved characters [A-Z a-z 0-9 - _ . ! ~ * ' ( )] and writes every
    other byte as [%XX] with upper-case hexadecimal digits. *)

Definition isDigit (c : ascii) : bool :=
  let n := nat_of_ascii c in Nat.leb 48 n && Nat.leb n 57.

Definition isAlpha (c : ascii) : bool :=
  let n := nat_of_ascii (lowerChar c) in Nat.leb 97 n && Nat.leb n 122.

Definition isUriUnreserved (c : ascii) : bool :=
  isAlpha c || isDigit c
  || existsb (Ascii.eqb c)
       ["-"; "_"; "."; "!"; "~"; "*"; "'"; "("; ")"]%char.

Definition hexDigit (n : nat) : ascii :=
  if Nat.ltb n 10 then ascii_of_nat (48 + n) else ascii_of_nat (55 + n).

Definition percentEncodeByte (c : ascii) : string :=
  let n := nat_of_ascii c in
  String "%"%char
    (String (hexDigit (Nat.div n 16))
       (String (hexDigit (Nat.modulo n 16)) EmptyString)).

Fixpoint encodeURIComponent (s : string) : string :=
  match s with
  | EmptyString => EmptyString
  | String c s' =>
      (if isUriUnreserved c then String c EmptyString
       else percentEncodeByte c) ++ encodeURIComponent s'
  end.

(** *** [parseInt(s, 10)]

    Leading white space is skipped, one sign is read, then the longest run
    of decimal digits; [None] stands for [NaN] (no digit).  The result is
    a JavaScript number: the double nearest to the integer read.

    The numbers of [getSortedLinks] are integers or infinities.  Such a
    number is given here by its value, and an infinity by 2^1024 with its
    sign, the value that rounding reaches when it overflows: it lies
    beyond every finite double and the two infinities of one sign are
    equal, as in the program. *)

(** The number value of an integer: round to nearest, ties to the even
    significand of 53 bits, overflow to an infinity.  (From the 21st
    significant digit on ECMAScript lets an implementation read a digit
    as 0; the value here is the one of the digits as written.) *)
Definition toNumber (z : Z) : Z :=
  let a := Z.abs z in
  if (a <? 2 ^ 53)%Z then z
  else
    let e := (Z.log2 a - 52)%Z in
    let q := Z.shiftr a e in
    let r := (a - Z.shiftl q e)%Z in
    let half := Z.shiftl 1 (e - 1) in
    let q' :=
      if (r <? half)%Z then q
      else if (half <? r)%Z then (q + 1)%Z
      else if Z.even q then q else (q + 1)%Z in
    (Z.sgn z * Z.min (Z.shiftl q' e) (2 ^ 1024))%Z.

Fixpoint digitsValue (acc : Z) (s : string) : Z :=
  match s with
  | String c s' =>
      if isDigit c
      then digitsValue (10 * acc + Z.of_nat (nat_of_ascii c - 48)) s'
      else acc
  | EmptyString => acc
  end.

Definition startsWithDigit (s : string) : bool :=
  match s with
  | String c _ => isDigit c
  | EmptyString => false
  end.

Definition parseInt10 (s : string) : option Z :=
  match trimStart s with
  | String "-"%char r =>
      if startsWithDigit r then Some (toNumber (- digitsValue 0 r)) else None
  | String "+"%char r =>
      if startsWithDigit r then Some (toNumber (digitsValue 0 r)) else None
  | r => if startsWithDigit r then Some (toNumber (digitsValue 0 r)) else None
  end.

(** ** The DOM tree

    An element carries its namespace and its local name (lower case for
    the HTML elements that the HTML parser builds), its attributes
    (unique by name, so a finite map) and its child nodes in document
    order.  The HTML parser puts the [svg] and [math] elements and what
    is inside them into the SVG and MathML namespaces. *)

Inductive Namespace : Type :=
| HTML
| SVG
| MathML.

#[warnings="-register-all"] Inductive node : Type :=
| Text (data : string)
| Comment (data : string)
| Element (namespace : Namespace) (name : string)
    (attributes : gmap string string) (childNodes : list node).

Definition children (n : node) : list node :=
  match n with
  | Element _ _ _ cs => cs
  | _ => []
  end.

Definition isElement (n : node) : bool :=
  match n with
  | Element _ _ _ _ => true
  | _ => false
  end.

Definition localName (n : node) : string :=
  match n with
  | Element _ t _ _ => t
  | _ => EmptyString
  end.

(** Whether the node is an element of the HTML namespace. *)
Definition isHTMLElement (n : node) : bool :=
  match n with
  | Element HTML _ _ _ => true
  | _ => false
  end.

(** [el.tagName] in an HTML document: the name of the element, in upper
    case when the element is in the HTML namespace and as it is
    otherwise. *)
Definition tagName (n : node) : string :=
  if isHTMLElement n then toUpperCase (localName n) else localName n.

Definition attrs (n : node) : gmap string string :=
  match n with
  | Element _ _ a _ => a
  | _ => ∅
  end.

(** [el.getAttribute(name)]; [None] is JavaScript's [null]. *)
Definition getAttribute (n : node) (name : string) : option string :=
  attrs n !! name.


(** [cloneNode(true)]: nodes are values here, a deep copy is the node. *)
Definition cloneNode (n : node) : node := n.

(** A parsed document: its document element, and whether the document
    is in quirks mode, as the HTML parser leaves it when the markup has
    no doctype (or an old one). *)
Record Document : Type := mkDocument {
  documentElement : node;
  quirksMode : bool
}.

(** ** Platform services

    What the program calls and the browser provides.  [None] stands for a
    thrown exception ([TypeError] of [new URL], [URIError] of
    [decodeURIComponent]) or for [null] ([URLSearchParams.get]). *)

Record URL : Type := mkURL {
  protocol : string;   (* scheme with its colon, as in "https:" *)
  hostname : string;
  pathname : string;
  search : string;
  href : string
}.

Class Platform : Type := {
  (** [new URL(input)] and [new URL(input, base)] *)
  URL_parse : string → option string → option URL;
  (** [new URLSearchParams(search).get(name)] *)
  URLSearchParams_get : string → string → option string;
  decodeURIComponent : string → option string;
  (** [new DOMParser().parseFromString(html, 'text/html')] *)
  DOMParser_parse : string → Document;
  (** whether [xhr.open('GET', url, true)] returns (it throws on a URL that
      does not parse) *)
  xhr_open_ok : string → bool
}.

(** [allowedProtocols.includes(p)], the same list at both places of
    [loadPage]. *)
Definition allowedProtocols : list string :=
  ["http:"; "https:"; "mailto:"; "ftp:"].

Definition inList (x : string) (l : list string) : bool :=
  existsb (String.eqb x) l.

(** ** The scraper of [loadPage] *)

(** *** Selectors *)

Definition isAsciiWhitespace (c : ascii) : bool :=
  let n := nat_of_ascii c in
  Nat.eqb n 9 || Nat.eqb n 10 || Nat.eqb n 12 || Nat.eqb n 13 || Nat.eqb n 32.

(** The tokens of a [class] attribute; [cur] is the token being read. *)
Fixpoint splitTokens (cur s : string) : list string :=
  match s with
  | EmptyString => if truthy cur then [cur] else []
  | String c s' =>
      if isAsciiWhitespace c
      then (if truthy cur then cur :: splitTokens EmptyString s'
            else splitTokens EmptyString s')
      else splitTokens (cur ++ String c EmptyString) s'
  end.

Definition classList (n : node) : list string :=
  match getAttribute n "class" with
  | Some v => splitTokens EmptyString v
  | None => []
  end.


(** The name of a class or ID selector against a class or an ID of an
    element: the same string, or in a document in quirks mode the same
    string up to the case of its ASCII letters. *)
Definition sameIdent (quirks : bool) (a b : string) : bool :=
  if quirks then String.eqb (toLowerCase a) (toLowerCase b)
  else String.eqb a b.

(** [.c] *)
Definition matchesClass (quirks : bool) (n : node) (c : string) : bool :=
  existsb (sameIdent quirks c) (classList n).

(** [#i] *)
Definition matchesId (quirks : bool) (n : node) (i : string) : bool :=
  match getAttribute n "id" with
  | Some v => sameIdent quirks i v
  | None => false
  end.

(** ['article, main, [role="main"], #content, .content, .post, .results,
    #links'], in a document whose mode is [quirks] *)
Definition matchesContentRoot (quirks : bool) (n : node) : bool :=
  isElement n
  && (String.eqb (localName n) "article"
      || String.eqb (localName n) "main"
      || bool_decide (getAttribute n "role" = Some "main")
      || matchesId quirks n "content"
      || matchesClass quirks n "content"
      || matchesClass quirks n "post"
      || matchesClass quirks n "results"
      || matchesId quirks n "links").

(** ['script, style, iframe, ads, nav, footer, img, video, svg, input,
    button, form, noscript, canvas, object'] *)
Definition junkNames : list string :=
  ["script"; "style"; "iframe"; "ads"; "nav"; "footer"; "img"; "video";
   "svg"; "input"; "button"; "form"; "noscript"; "canvas"; "object"].

Definition isJunk (n : node) : bool :=
  isElement n && inList (localName n) junkNames.

(** [root.querySelector(sel)] over the elements of a document: the first
    match in document order, the root element included. *)
Fixpoint querySelector (sel : node → bool) (n : node) : option node :=
  match n with
  | Element _ _ _ cs =>
      if sel n then Some n
      else (fix first (l : list node) : option node :=
              match l with
              | [] => None
              | c :: l' =>
                  match querySelector sel c with
                  | Some r => Some r
                  | None => first l'
                  end
              end) cs
  | _ => None
  end.

(** An HTML element of the given name. *)
Definition isHTMLNamed (name : string) (n : node) : bool :=
  isHTMLElement n && String.eqb (localName n) name.

(** [doc.body]: the first child of the [html] element that is a [body]
    or a [frameset] element; [null] when there is none or when the
    document element is no [html] element. *)
Definition body (doc : Document) : option node :=
  if isHTMLNamed "html" (documentElement doc)
  then List.find (λ c, isHTMLNamed "body" c || isHTMLNamed "frameset" c)
         (children (documentElement doc))
  else None.

(** [doc.querySelector(...) || doc.body]; [None] is [null]. *)
Definition selectSource (doc : Document) : option node :=
  match querySelector (matchesContentRoot (quirksMode doc))
          (documentElement doc) with
  | Some el => Some el
  | None => body doc
  end.

(** *** Removing the junk elements

    [source.querySelectorAll(junk).forEach(el => el.remove())] detaches
    every matching descendant with its subtree. *)
Fixpoint stripJunk (n : node) : node :=
  match n with
  | Element ns t a cs =>
      Element ns t a
        (List.filter (λ c, negb (isJunk c)) (List.map stripJunk cs))
  | _ => n
  end.

(** *** Cleaning one element *)

(** [el.classList.add(c)] as the value written to the [class] attribute:
    the token set (without duplicates), [c] added when missing. *)
Fixpoint dedupe (l : list string) : list string :=
  match l with
  | [] => []
  | x :: l' => x :: List.filter (λ y, negb (String.eqb x y)) (dedupe l')
  end.

Definition classListAdd (n : node) (c : string) : string :=
  let toks := dedupe (classList n) in
  String.concat " " (if inList c toks then toks else toks ++ [c]).

Definition withAttrs (n : node) (a : gmap string string) : node :=
  match n with
  | Element ns t _ cs => Element ns t a cs
  | _ => n
  end.

Definition setAttribute (n : node) (name value : string) : node :=
  withAttrs n (<[name := value]> (attrs n)).

Definition removeAttribute (n : node) (name : string) : node :=
  withAttrs n (delete name (attrs n)).

(** [Array.from(el.attributes).forEach(attr => { if (/^on/i.test(attr.name))
    el.removeAttribute(attr.name) })] *)
Definition removeEventHandlers (n : node) : node :=
  withAttrs n (filter (λ kv, isEventHandlerName kv.1 = false) (attrs n)).

Section Scraper.
Context `{Platform}.

(** The [href] part of the callback: [url] is the address of the page
    being loaded. *)
Definition rewriteHref (url : string) (el : node) : node :=
  match getAttribute el "href" with
  | Some h =>
      if truthy h then
        match URL_parse h (Some url) with
        | Some resolved =>
            if inList (protocol resolved) allowedProtocols
            then setAttribute el "href" (href resolved)
            else removeAttribute el "href"
        | None => removeAttribute el "href"
        end
      else el
  | None => el
  end.

(** The callback of [allElements.forEach]. *)
Definition cleanElement (url : string) (el : node) : node :=
  let el := removeAttribute el "style" in
  let el := removeEventHandlers el in
  if String.eqb (tagName el) "A" then
    let el := rewriteHref url el in
    let el := setAttribute el "class" (classListAdd el "kai-link") in
    let el := setAttribute el "tabindex" "0" in
    let el := removeAttribute el "target" in
    setAttribute el "rel" "noreferrer"
  else el.

(** [cleanElement] on a node and on all its descendant elements. *)
Fixpoint cleanAll (url : string) (n : node) : node :=
  match n with
  | Element ns t a cs =>
      cleanElement url (Element ns t a (List.map (cleanAll url) cs))
  | _ => n
  end.

(** The fragment appended to the reader: the cleaned children of the
    source, cloned.  [None] when the document has no source at all
    ([source] is [null] and [source.querySelectorAll] throws). *)
Definition scrape (doc : Document) (url : string) : option (list node) :=
  match selectSource doc with
  | Some source =>
      let source := stripJunk source in
      Some (List.map cloneNode (List.map (cleanAll url) (children source)))
  | None => None
  end.

(** *** The redirect wrapper of [loadPage] *)
Definition unwrapRedirector (url : string) : string :=
  match URL_parse url None with
  | Some parsedTemp =>
      if includes (hostname parsedTemp) "duckduckgo.com"
         && startsWith (pathname parsedTemp) "/l/"
      then
        match URLSearchParams_get (search parsedTemp) "uddg" with
        | Some uddg =>
            if truthy uddg then
              match decodeURIComponent uddg with
              | Some decodedUrl =>
                  match URL_parse decodedUrl None with
                  | Some parsed =>
                      if inList (protocol parsed) allowedProtocols
                      then decodedUrl
                      else url
                  | None => url
                  end
              | None => url
              end
            else url
        | None => url
        end
      else url
  | None => url
  end.
End Scraper.

(** ** The global state

    The first seven fields are the [let] globals of the program that
    navigation reads or writes; the others are the parts of the page it
    touches: the content of [#reader], the value of [#url-input], the
    loading screen, the notifications shown, [window.close()], and the
    suspended call of [loadPage] (its local [url]) while the request is in
    flight. *)

Inductive ReaderView : Type :=
| WelcomeView
| ErrorView (message : string)
| PageView (content : list node).

Record State : Type := mkState {
  isMenuOpen : bool;
  isUrlBarOpen : bool;
  isAboutOpen : bool;
  currUrl : string;
  historyStack : list string;   (* most recent last, as the array *)
  isLoading : bool;
  selectedLinkIndex : Z;
  reader : ReaderView;
  urlInput : string;
  loaderHidden : bool;
  notifications : list (string * bool);
  closeRequested : bool;
  inFlight : option string
}.

Definition set_isMenuOpen (v : bool) (s : State) : State :=
  mkState v (isUrlBarOpen s) (isAboutOpen s) (currUrl s) (historyStack s)
    (isLoading s) (selectedLinkIndex s) (reader s) (urlInput s)
    (loaderHidden s) (notifications s) (closeRequested s) (inFlight s).

Definition set_isUrlBarOpen (v : bool) (s : State) : State :=
  mkState (isMenuOpen s) v (isAboutOpen s) (currUrl s) (historyStack s)
    (isLoading s) (selectedLinkIndex s) (reader s) (urlInput s)
    (loaderHidden s) (notifications s) (closeRequested s) (inFlight s).

Definition set_isAboutOpen (v : bool) (s : State) : State :=
  mkState (isMenuOpen s) (isUrlBarOpen s) v (currUrl s) (historyStack s)
    (isLoading s) (selectedLinkIndex s) (reader s) (urlInput s)
    (loaderHidden s) (notifications s) (closeRequested s) (inFlight s).

Definition set_currUrl (v : string) (s : State) : State :=
  mkState (isMenuOpen s) (isUrlBarOpen s) (isAboutOpen s) v (historyStack s)
    (isLoading s) (selectedLinkIndex s) (reader s) (urlInput s)
    (loaderHidden s) (notifications s) (closeRequested s) (inFlight s).

Definition set_historyStack (v : list string) (s : State) : State :=
  mkState (isMenuOpen s) (isUrlBarOpen s) (isAboutOpen s) (currUrl s) v
    (isLoading s) (selectedLinkIndex s) (reader s) (urlInput s)
    (loaderHidden s) (notifications s) (closeRequested s) (inFlight s).

Definition set_isLoading (v : bool) (s : State) : State :=
  mkState (isMenuOpen s) (isUrlBarOpen s) (isAboutOpen s) (currUrl s)
    (historyStack s) v (selectedLinkIndex s) (reader s) (urlInput s)
    (loaderHidden s) (notifications s) (closeRequested s) (inFlight s).

Definition set_selectedLinkIndex (v : Z) (s : State) : State :=
  mkState (isMenuOpen s) (isUrlBarOpen s) (isAboutOpen s) (currUrl s)
    (historyStack s) (isLoading s) v (reader s) (urlInput s)
    (loaderHidden s) (notifications s) (closeRequested s) (inFlight s).

Definition set_reader (v : ReaderView) (s : State) : State :=
  mkState (isMenuOpen s) (isUrlBarOpen s) (isAboutOpen s) (currUrl s)
    (historyStack s) (isLoading s) (selectedLinkIndex s) v (urlInput s)
    (loaderHidden s) (notifications s) (closeRequested s) (inFlight s).

Definition set_urlInput (v : string) (s : State) : State :=
  mkState (isMenuOpen s) (isUrlBarOpen s) (isAboutOpen s) (currUrl s)
    (historyStack s) (isLoading s) (selectedLinkIndex s) (reader s) v
    (loaderHidden s) (notifications s) (closeRequested s) (inFlight s).

Definition set_loaderHidden (v : bool) (s : State) : State :=
  mkState (isMenuOpen s) (isUrlBarOpen s) (isAboutOpen s) (currUrl s)
    (historyStack s) (isLoading s) (selectedLinkIndex s) (reader s)
    (urlInput s) v (notifications s) (closeRequested s) (inFlight s).

Definition set_notifications (v : list (string * bool)) (s : State) : State :=
  mkState (isMenuOpen s) (isUrlBarOpen s) (isAboutOpen s) (currUrl s)
    (historyStack s) (isLoading s) (selectedLinkIndex s) (reader s)
    (urlInput s) (loaderHidden s) v (closeRequested s) (inFlight s).

Definition set_closeRequested (v : bool) (s : State) : State :=
  mkState (isMenuOpen s) (isUrlBarOpen s) (isAboutOpen s) (currUrl s)
    (historyStack s) (isLoading s) (selectedLinkIndex s) (reader s)
    (urlInput s) (loaderHidden s) (notifications s) v (inFlight s).

Definition set_inFlight (v : option string) (s : State) : State :=
  mkState (isMenuOpen s) (isUrlBarOpen s) (isAboutOpen s) (currUrl s)
    (historyStack s) (isLoading s) (selectedLinkIndex s) (reader s)
    (urlInput s) (loaderHidden s) (notifications s) (closeRequested s) v.

(** The state once [DOMContentLoaded] has shown the welcome screen. *)
Definition initialState : State :=
  mkState false false false EmptyString [] false (-1) WelcomeView
    EmptyString true [] false None.

Definition MAX_HISTORY : nat := 50.

(** ** Small state changes *)

Definition showError (message : string) (s : State) : State :=
  set_reader (ErrorView message) s.

Definition showNotification (message : string) (isError : bool) (s : State)
  : State :=
  set_notifications (notifications s ++ [(message, isError)])%list s.

Definition clearLinkSelection (s : State) : State :=
  set_selectedLinkIndex (-1) s.

Definition setupLinkInteractions (s : State) : State := clearLinkSelection s.

Definition toggleUrlBar (s : State) : State :=
  let s := set_isUrlBarOpen (negb (isUrlBarOpen s)) s in
  if isUrlBarOpen s then clearLinkSelection s else s.

Definition openMenu (s : State) : State :=
  set_isMenuOpen true (clearLinkSelection s).

Definition closeMenu (s : State) : State := set_isMenuOpen false s.

Definition openAbout (s : State) : State :=
  set_isAboutOpen true (set_isMenuOpen false s).

Definition closeAbout (s : State) : State := set_isAboutOpen false s.

(** ** [loadPage] *)

(** [historyStack.push(currUrl); if (historyStack.length > MAX_HISTORY)
    historyStack.shift()] *)
Definition pushHistory (c : string) (h : list string) : list string :=
  let h' := (h ++ [c])%list in
  if Nat.ltb MAX_HISTORY (List.length h') then tail h' else h'.

(** The guard of the history block. *)
Definition leavesPage (isBackAction : bool) (cur url : string) : bool :=
  negb isBackAction && truthy cur && negb (String.eqb cur url).

(** How the request ends: [xhr.onload] with the status, the
    [Content-Type] header ([None] when absent) and the response text,
    [xhr.onerror] or [xhr.ontimeout]. *)
Inductive Outcome : Type :=
| OnLoad (status : Z) (contentType : option string) (responseText : string)
| OnError
| OnTimeout.

(** [ct && !ct.toLowerCase().includes('html') &&
    !ct.toLowerCase().startsWith('text/')] *)
Definition unsupportedContentType (ct : option string) : bool :=
  match ct with
  | Some ct =>
      truthy ct
      && negb (includes (toLowerCase ct) "html")
      && negb (startsWith (toLowerCase ct) "text/")
  | None => false
  end.

Definition loadFailedMessage : string :=
  "Failed to load page. Site may be blocking access or you may be offline.".

Definition unsupportedMessage : string :=
  "This content type cannot be rendered in-app.".

(** The [finally] block. *)
Definition loadPage_finally (s : State) : State :=
  set_loaderHidden true (set_isLoading false (set_inFlight None s)).

Section Loader.
Context `{Platform}.

(** [loadPage(url, isBackAction)] up to the [await]: the request is in
    flight when [inFlight] is set on return. *)
Definition loadPage (url : string) (isBackAction : bool) (s : State)
  : State :=
  if isLoading s then s
  else
    let s := set_loaderHidden false (set_isLoading true s) in
    if negb (truthy url)
    then set_isLoading false (showError "Invalid URL" s)
    else
      let s :=
        if leavesPage isBackAction (currUrl s) url
        then set_historyStack (pushHistory (currUrl s) (historyStack s)) s
        else s in
      let url := unwrapRedirector url in
      if xhr_open_ok url then set_inFlight (Some url) s
      else loadPage_finally (showError loadFailedMessage s).

(** [loadPage] from the settled promise on. *)
Definition loadPage_resume (o : Outcome) (s : State) : State :=
  match inFlight s with
  | None => s
  | Some url =>
      match o with
      | OnLoad status ct responseText =>
          if (200 <=? status)%Z && (status <? 300)%Z then
            if unsupportedContentType ct
            then loadPage_finally (showNotification unsupportedMessage true s)
            else
              match scrape (DOMParser_parse responseText) url with
              | Some frag =>
                  let s := set_reader (PageView frag) s in
                  let s := setupLinkInteractions s in
                  let s := set_currUrl url s in
                  let s := set_urlInput url s in
                  loadPage_finally s
              | None => loadPage_finally (showError loadFailedMessage s)
              end
          else loadPage_finally (showError loadFailedMessage s)
      | OnError | OnTimeout =>
          loadPage_finally (showError loadFailedMessage s)
      end
  end.

(** ** [handleUrlSubmit] *)

Definition searchUrl (input : string) : string :=
  "https://duckduckgo.com/html/?q=" ++ encodeURIComponent input.

Definition invalidUrlMessage : string :=
  "Invalid URL format. Please enter a valid website address.".

Definition handleUrlSubmit (s : State) : State :=
  let input := trim (urlInput s) in
  if negb (truthy input) then s
  else if negb (includes input ".") || includes input " "
  then loadPage (searchUrl input) false (toggleUrlBar s)
  else
    let candidate :=
      if startsWith input "http" then input else "https://" ++ input in
    match URL_parse candidate None with
    | Some _ => loadPage candidate false (toggleUrlBar s)
    | None => showError invalidUrlMessage s
    end.

(** ** [handleMenuAction], the actions that navigate or change mode *)

Inductive MenuAction : Type :=
| ActTop
| ActRefresh
| ActLoadBookmark (dataUrl : string)
| ActAbout
| ActClose.

Definition handleMenuAction (a : MenuAction) (s : State) : State :=
  match a with
  | ActTop => closeMenu s
  | ActRefresh => closeMenu (loadPage (currUrl s) false s)
  | ActLoadBookmark dataUrl => closeMenu (loadPage dataUrl false s)
  | ActAbout => openAbout s
  | ActClose => closeMenu s
  end.

(** ** The [keydown] listener on Backspace

    The volume and arrow blocks do not apply to this key. *)

(** [historyStack.pop()] on a non-empty array. *)
Definition popHistory (h : list string) : option (string * list string) :=
  match last h with
  | Some top => Some (top, removelast h)
  | None => None
  end.

Definition keydownBackspace (s : State) : State :=
  if isAboutOpen s then closeAbout s
  else if isUrlBarOpen s then
    (if Nat.eqb (String.length (urlInput s)) 0 then toggleUrlBar s else s)
  else if isMenuOpen s then closeMenu s
  else
    match popHistory (historyStack s) with
    | Some (top, rest) => loadPage top true (set_historyStack rest s)
    | None => set_closeRequested true s
    end.

(** ** The other keys, and runs of the program

    What the listener reads from the page comes with the event: the
    action of the focused menu item, the [href] of the link that Enter
    or a click would open, the index an arrow key selects. *)

Inductive Event : Type :=
| EvTypeUrl (value : string)       (* editing [#url-input] *)
| EvSoftLeft
| EvSoftRight
| EvEnter (item : option MenuAction) (linkHref : option string)
| EvEscape
| EvBackspace
| EvArrow (picked : Z)
| EvClick (linkHref : string)
| EvSettled (o : Outcome).         (* the request settles *)

Definition overlayOpen (s : State) : bool :=
  isMenuOpen s || isUrlBarOpen s || isAboutOpen s.

Definition step (s : State) (e : Event) : State :=
  match e with
  | EvTypeUrl v => set_urlInput v s
  | EvSoftLeft =>
      if isAboutOpen s then s
      else if negb (isMenuOpen s) && negb (isAboutOpen s)
      then toggleUrlBar s
      else s
  | EvSoftRight =>
      if isAboutOpen s then closeAbout s
      else if negb (isUrlBarOpen s) && negb (isAboutOpen s)
      then (if isMenuOpen s then closeMenu s else openMenu s)
      else s
  | EvEnter item linkHref =>
      if isAboutOpen s then closeAbout s
      else if isUrlBarOpen s then handleUrlSubmit s
      else if isMenuOpen s then
        match item with
        | Some a => handleMenuAction a s
        | None => s
        end
      else
        match linkHref with
        | Some h => loadPage h false s
        | None => s
        end
  | EvEscape =>
      if isAboutOpen s then s
      else if isMenuOpen s then closeMenu s
      else if negb (selectedLinkIndex s =? -1)%Z then clearLinkSelection s
      else s
  | EvBackspace => keydownBackspace s
  | EvArrow picked =>
      if overlayOpen s then s else set_selectedLinkIndex picked s
  | EvClick h => if overlayOpen s then s else loadPage h false s
  | EvSettled o => loadPage_resume o s
  end.

Definition run (s : State) (es : list Event) : State := fold_left step es s.
End Loader.

(** ** [getSortedLinks]

    A link of the reader as the function sees it: the element (named by its
    position in the document), the rounded corner of its bounding
    rectangle ([Math.round(r.top)], [Math.round(r.left)]) and its
    [data-top] and [data-left] attributes. *)

Record Link : Type := mkLink {
  linkId : nat;
  rectTop : Z;
  rectLeft : Z;
  dataTop : option string;
  dataLeft : option string
}.

(** The objects [{ el, top, left }] that are sorted; [top] and [left] are
    numbers, an infinity being 2^1024 with its sign. *)
Record Mapped : Type := mkMapped {
  el : Link;
  top : Z;
  left : Z
}.

(** [(a.top - b.top) || (a.left - b.left)], of which the sort looks at
    the sign only: the difference of two numbers has the sign of the exact
    difference, and that of two equal infinities, which is [NaN], counts
    as 0 in both places. *)
Definition compareTopLeft (a b : Mapped) : Z :=
  if (top a - top b =? 0)%Z then (left a - left b)%Z else (top a - top b)%Z.

(** [Array.prototype.sort(cmp)] is a stable sort; with a consistent
    comparator every stable sort returns the same array, here computed by
    insertion from the right. *)
Fixpoint insertBy {A : Type} (cmp : A → A → Z) (x : A) (l : list A) : list A :=
  match l with
  | [] => [x]
  | y :: l' => if (cmp x y <=? 0)%Z then x :: l else y :: insertBy cmp x l'
  end.

Definition arraySort {A : Type} (cmp : A → A → Z) (l : list A) : list A :=
  fold_right (insertBy cmp) [] l.

(** [parseInt(l.getAttribute(name) || l.dataset[..] || '0', 10) || 0] *)
Definition hint (v : option string) : Z :=
  let text :=
    match v with
    | Some a => if truthy a then a else "0"
    | None => "0"
    end in
  match parseInt10 text with
  | Some z => z
  | None => 0%Z
  end.

Definition measured (l : Link) : Mapped := mkMapped l (rectTop l) (rectLeft l).

Definition hinted (l : Link) : Mapped :=
  mkMapped l (hint (dataTop l)) (hint (dataLeft l)).

Definition allZeroTop (mapped : list Mapped) : bool :=
  forallb (λ m, (top m =? 0)%Z) mapped.

Definition getSortedLinks (links : list Link) : list Link :=
  let mapped := List.map measured links in
  if allZeroTop mapped then
    let fallback := List.map hinted links in
    List.map el (arraySort compareTopLeft fallback)
  else List.map el (arraySort compareTopLeft mapped).

(** ** A reference platform for closed examples

    The theorems below hold for every [Platform].  Examples on concrete
    inputs need one that computes: [refPlatform] covers plain ASCII
    addresses of the shapes [scheme://host/path?query#fragment] (for
    [http], [https] and [ftp], without credentials or port) and
    [scheme:opaque], relative references that are empty or start with one
    [/], ASCII percent-escapes, and documents that are markup-free text.
    On these inputs it returns what the URL Standard, ECMAScript and the
    HTML parser prescribe; it is not meant to be used beyond them. *)

(** [span p s]: the longest prefix of [s] whose characters satisfy [p], and
    the rest. *)
Fixpoint span (p : ascii → bool) (s : string) : string * string :=
  match s with
  | EmptyString => (EmptyString, EmptyString)
  | String c s' =>
      if p c then let '(a, b) := span p s' in (String c a, b)
      else (EmptyString, s)
  end.

Definition charIn (cs : list ascii) (c : ascii) : bool := existsb (Ascii.eqb c) cs.

Fixpoint allChars (p : ascii → bool) (s : string) : bool :=
  match s with
  | EmptyString => true
  | String c s' => p c && allChars p s'
  end.

Definition isSchemeChar (c : ascii) : bool :=
  isAlpha c || isDigit c || charIn ["+"; "-"; "."]%char c.

Definition isHostChar (c : ascii) : bool :=
  isAlpha c || isDigit c || charIn ["-"; "."]%char c.

(** The scheme of an absolute address and what follows its colon. *)
Definition splitScheme (s : string) : option (string * string) :=
  match span isSchemeChar s with
  | (String c sch, String ":"%char rest) =>
      if isAlpha c then Some (toLowerCase (String c sch), rest) else None
  | _ => None
  end.

Definition specialSchemes : list string := ["http"; "https"; "ftp"].

Definition dropHash (s : string) : string :=
  fst (span (λ c, negb (Ascii.eqb c "#"%char)) s).

Definition refParseAbsolute (s : string) : option URL :=
  match splitScheme s with
  | Some (scheme, rest) =>
      if inList scheme specialSchemes then
        match rest with
        | String "/"%char (String "/"%char r) =>
            let '(authority, r1) := span (λ c, negb (charIn ["/"; "?"; "#"]%char c)) r in
            let '(path, r2) := span (λ c, negb (charIn ["?"; "#"]%char c)) r1 in
            let '(query, fragment) := span (λ c, negb (Ascii.eqb c "#"%char)) r2 in
            let host := toLowerCase authority in
            let path := if truthy path then path else "/" in
            if truthy host && allChars isHostChar host then
              Some (mkURL (scheme ++ ":") host path
                      (if String.eqb query "?" then EmptyString else query)
                      (scheme ++ "://" ++ host ++ path ++ query ++ fragment))
            else None
        | _ => None
        end
      else
        let '(path, r2) := span (λ c, negb (charIn ["?"; "#"]%char c)) rest in
        let '(query, fragment) := span (λ c, negb (Ascii.eqb c "#"%char)) r2 in
        Some (mkURL (scheme ++ ":") EmptyString path
                (if String.eqb query "?" then EmptyString else query)
                (scheme ++ ":" ++ rest))
  | None => None
  end.

(** The parser first drops leading and trailing C0 controls and spaces,
    then every tab and newline. *)
Definition isC0OrSpace (c : ascii) : bool := Nat.leb (nat_of_ascii c) 32.

Fixpoint dropLeading (p : ascii → bool) (s : string) : string :=
  match s with
  | EmptyString => EmptyString
  | String c s' => if p c then dropLeading p s' else s
  end.

Fixpoint dropTrailing (p : ascii → bool) (s : string) : string :=
  match s with
  | EmptyString => EmptyString
  | String c s' =>
      let t := dropTrailing p s' in
      if p c && String.eqb t EmptyString then EmptyString else String c t
  end.

Fixpoint removeChars (p : ascii → bool) (s : string) : string :=
  match s with
  | EmptyString => EmptyString
  | String c s' => if p c then removeChars p s' else String c (removeChars p s')
  end.

Definition isTabOrNewline (c : ascii) : bool :=
  let n := nat_of_ascii c in Nat.eqb n 9 || Nat.eqb n 10 || Nat.eqb n 13.

Definition cleanUrlInput (s : string) : string :=
  removeChars isTabOrNewline (dropTrailing isC0OrSpace (dropLeading isC0OrSpace s)).

Definition refURL_parse (input0 : string) (base : option string) : option URL :=
  let input := cleanUrlInput input0 in
  match refParseAbsolute input with
  | Some u => Some u
  | None =>
      match base with
      | Some b =>
          match input, refParseAbsolute (cleanUrlInput b) with
          | EmptyString, Some _ => refParseAbsolute (dropHash (cleanUrlInput b))
          | String "/"%char (String "/"%char _), _ => None
          | String "/"%char _, Some bu =>
              if inList (protocol bu) ["http:"; "https:"; "ftp:"]
              then refParseAbsolute (protocol bu ++ "//" ++ hostname bu ++ input)
              else None
          | _, _ => None
          end
      | None => None
      end
  end.

Definition hexValue (c : ascii) : option nat :=
  let n := nat_of_ascii c in
  if isDigit c then Some (n - 48)
  else if Nat.leb 65 n && Nat.leb n 70 then Some (n - 55)
  else if Nat.leb 97 n && Nat.leb n 102 then Some (n - 87)
  else None.

(** [decodeURIComponent] on ASCII escapes; a [%] without two hexadecimal
    digits is a [URIError]. *)
Fixpoint refDecodeURIComponent (s : string) : option string :=
  match s with
  | EmptyString => Some EmptyString
  | String "%"%char (String h (String l s')) =>
      match hexValue h, hexValue l, refDecodeURIComponent s' with
      | Some a, Some b, Some r =>
          if Nat.ltb (16 * a + b) 128
          then Some (String (ascii_of_nat (16 * a + b)) r)
          else None
      | _, _, _ => None
      end
  | String "%"%char _ => None
  | String c s' =>
      match refDecodeURIComponent s' with
      | Some r => Some (String c r)
      | None => None
      end
  end.

(** The decoding of [application/x-www-form-urlencoded] names and values:
    [+] is a space, a malformed escape stays as it is. *)
Fixpoint formDecode (s : string) : string :=
  match s with
  | EmptyString => EmptyString
  | String "+"%char s' => String " "%char (formDecode s')
  | String "%"%char (String h (String l s') as t) =>
      match hexValue h, hexValue l with
      | Some a, Some b => String (ascii_of_nat (16 * a + b)) (formDecode s')
      | _, _ => String "%"%char (formDecode t)
      end
  | String c s' => String c (formDecode s')
  end.

(** The [name=value] pieces of a query, split at [&]; [cur] is the piece
    being read. *)
Fixpoint splitAmp (cur s : string) : list string :=
  match s with
  | EmptyString => [cur]
  | String "&"%char s' => cur :: splitAmp EmptyString s'
  | String c s' => splitAmp (cur ++ String c EmptyString) s'
  end.

Definition splitPair (piece : string) : string * string :=
  let '(k, r) := span (λ c, negb (Ascii.eqb c "="%char)) piece in
  match r with
  | String _ v => (formDecode k, formDecode v)
  | EmptyString => (formDecode k, EmptyString)
  end.

Definition refSearchParams_get (search name : string) : option string :=
  let query :=
    match search with
    | String "?"%char q => q
    | q => q
    end in
  let pairs :=
    List.map splitPair (List.filter truthy (splitAmp EmptyString query)) in
  match List.find (λ kv, String.eqb (fst kv) name) pairs with
  | Some kv => Some (snd kv)
  | None => None
  end.

(** The document the HTML parser builds from markup-free text; without
    doctype it is in quirks mode. *)
Definition refDOMParser_parse (html : string) : Document :=
  mkDocument
    (Element HTML "html" ∅
       [Element HTML "head" ∅ [];
        Element HTML "body" ∅ (if truthy html then [Text html] else [])])
    true.

Definition refPlatform : Platform := {|
  URL_parse := refURL_parse;
  URLSearchParams_get := refSearchParams_get;
  decodeURIComponent := refDecodeURIComponent;
  DOMParser_parse := refDOMParser_parse;
  xhr_open_ok := λ _, true
|}.




(** ** What the claims speak about *)





(** ** How events change the history stack and the reader *)

(** How one event may change the history stack of a state: not at all, by
    a pop, or by pushing the current location when that is not empty and
    differs from the target [url] of a forward navigation. *)
Inductive historyChange (s : State) : list string → Prop :=
| hc_same : historyChange s (historyStack s)
| hc_pop : historyChange s (removelast (historyStack s))
| hc_push (url : string) :
    currUrl s ≠ EmptyString → currUrl s ≠ url →
    historyChange s (pushHistory (currUrl s) (historyStack s)).




(** ** Data of the examples *)

Definition okHtml (responseText : string) : Outcome :=
  OnLoad 200 (Some "text/html; charset=utf-8") responseText.

(** A full history stack: fifty locations, the oldest first. *)
Definition fiftyPages : list string :=
  "https://oldest.example/" :: repeat "https://page.example/" 49.


(** ** Failed and successful requests *)




(** Two pages visited one after the other, then a third request that fails
    or returns a PDF. *)
Definition visitA : list Event :=
  [EvClick "https://a.example/"; EvSettled (okHtml "page a")].



Definition requestB : list Event := [EvClick "https://b.example/"].

(** The state after the visit to [a.example]. *)
Definition atPageA : State := @run refPlatform initialState visitA.

(** A request for [b.example] in flight, with [a.example] on the history
    stack. *)
Definition busyOnB : list Event := (visitA ++ requestB)%list.








(** ** Redirect links and URL-bar input *)

(** [url] is a redirect link that [loadPage] replaces by [target]: the
    tests of the wrapper block, in their order. *)
Inductive wrapsTarget `{Platform} (url target : string) : Prop :=
| wraps_intro (parsedTemp : URL) (uddg : string) (parsed : URL) :
    URL_parse url None = Some parsedTemp →
    includes (hostname parsedTemp) "duckduckgo.com" = true →
    startsWith (pathname parsedTemp) "/l/" = true →
    URLSearchParams_get (search parsedTemp) "uddg" = Some uddg →
    uddg ≠ EmptyString →
    decodeURIComponent uddg = Some target →
    URL_parse target None = Some parsed →
    inList (protocol parsed) allowedProtocols = true →
    wrapsTarget url target.

(** A link on a host that merely contains the name of the search engine. *)
Definition lookalikeWrapper : string :=
  "https://duckduckgo.com.evil.example/l/?uddg=https%3A%2F%2Fevil.example%2F".

Definition hasHttpScheme (input : string) : bool :=
  startsWith input "http://" || startsWith input "https://".

Definition containsWhiteSpace (s : string) : bool :=
  negb (allChars (λ c, negb (isWhiteSpace c)) s).

(** The characters [encodeURIComponent] can return. *)
Definition isEncodedChar (c : ascii) : bool :=
  isUriUnreserved c || Ascii.eqb c "%"%char.

(** The URL bar open on a given text. *)
Definition urlBarWith (text : string) : State :=
  set_urlInput text (toggleUrlBar initialState).

(** An address with a tab in it. *)
Definition tabbedInput : string := "a.b" ++ String "009"%char "c".

(** The attributes of a link that has only an [href]. *)
Definition hrefOnly (h : string) : gmap string string := {[ "href" := h ]}.


(** An [a] element of MathML, as the HTML parser builds it inside [math],
    with a script address and a [target]. *)
Definition mathLink : node :=
  Element MathML "a"
    (<[ "target" := "_blank" ]> (hrefOnly "javascript:alert(1)")) [Text "x"].

(** U+00A0, the no-break space, and an address between two of them. *)
Definition nbsp : string :=
  String (ascii_of_nat 194) (String (ascii_of_nat 160) EmptyString).

Definition paddedInput : string := nbsp ++ "example.com" ++ nbsp.

(** ** The order of the links *)

(** [a] is not after [b]: smaller top, or the same top and a left that is
    not larger. *)
Definition topLeftLe (a b : Mapped) : Prop :=
  (top a < top b ∨ (top a = top b ∧ left a ≤ left b))%Z.

(** The position with which [getSortedLinks] sorts a link of [links]. *)
Definition sortKey (links : list Link) : Link → Mapped :=
  if allZeroTop (List.map measured links) then hinted else measured.

(** [out] is [input] sorted by the positions [key], stably: a permutation
    of the same length, ascending in (top, left), with the links of one
    position in their input order. *)
Record stableSortOf (key : Link → Mapped) (input out : list Link) : Prop :=
  mkStableSortOf {
    sso_perm : out ≡ₚ input;
    sso_length : List.length out = List.length input;
    sso_sorted : StronglySorted (λ a b, topLeftLe (key a) (key b)) out;
    sso_stable :
      ∀ t l : Z,
        List.filter (λ x, (top (key x) =? t)%Z && (left (key x) =? l)%Z) out
        = List.filter (λ x, (top (key x) =? t)%Z && (left (key x) =? l)%Z)
            input
  }.

(** Two links on the top edge of the viewport, the second one further
    left, without position hints. *)
Definition linkRight : Link := mkLink 0 0 10 None None.
Definition linkLeft : Link := mkLink 1 0 5 None None.

(** Two links on one line below the top edge, whose hints name the other
    order. *)
Definition lineRight : Link := mkLink 0 100 10 None (Some "1").
Definition lineLeft : Link := mkLink 1 100 5 None (Some "2").

(** Two links without layout whose [data-top] hints, 2^53 + 1 and 2^53,
    are the same number. *)
Definition hintedBeyond : Link := mkLink 0 0 0 (Some "9007199254740993") None.
Definition hintedAtLimit : Link := mkLink 1 0 0 (Some "9007199254740992") None.

(** Two links without layout whose hints put the second one first. *)
Definition hintedLow : Link := mkLink 0 0 0 (Some "20") None.
Definition hintedHigh : Link := mkLink 1 0 0 (Some "10px") None.

(* ================================================================== *)
(** * Further definitions: more of the program *)

(** ** Text and shape of a tree *)








Definition laterArticle : node := Element HTML "article" ∅ [Text "story"].


(** The same with the class written [Content]: a content container only
    in quirks mode. *)
Definition capitalDiv : node :=
  Element HTML "div" {[ "class" := "page Content" ]} [Text "teaser"].

Definition capitalDocument (quirks : bool) : Document :=
  mkDocument
    (Element HTML "html" ∅
       [Element HTML "head" ∅ [];
        Element HTML "body" ∅ [capitalDiv; laterArticle]])
    quirks.

(** A page of frames, without content container. *)
Definition frameset : node :=
  Element HTML "frameset" {[ "cols" := "50%,50%" ]}
    [Element HTML "frame" {[ "src" := "left.html" ]} [];
     Element HTML "frame" {[ "src" := "right.html" ]} []].

Definition framesetDocument : Document :=
  mkDocument
    (Element HTML "html" ∅ [Element HTML "head" ∅ []; frameset]) true.

(** ** White space *)

(** The string of the given bytes. *)
Definition bytes (l : list nat) : string :=
  fold_right (λ n s, String (ascii_of_nat n) s) EmptyString l.

(** The UTF-8 bytes of the white space code points of ECMAScript, in the
    order of their numbers: U+0009 to U+000D, U+0020, U+00A0, U+1680,
    U+2000 to U+200A, U+2028, U+2029, U+202F, U+205F, U+3000, U+FEFF. *)
Definition whiteSpaceCodePoints : list string :=
  List.map bytes
    [[9]; [10]; [11]; [12]; [13]; [32]; [194; 160]; [225; 154; 128];
     [226; 128; 128]; [226; 128; 129]; [226; 128; 130]; [226; 128; 131];
     [226; 128; 132]; [226; 128; 133]; [226; 128; 134]; [226; 128; 135];
     [226; 128; 136]; [226; 128; 137]; [226; 128; 138]; [226; 128; 168];
     [226; 128; 169]; [226; 128; 175]; [226; 129; 159]; [227; 128; 128];
     [239; 187; 191]].

(** The string made of the given pieces. *)
Definition joined (pieces : list string) : string :=
  fold_right String.append EmptyString pieces.

(** A blank text: a space, a no-break space, a tab and a byte order
    mark. *)
Definition blankPieces : list string :=
  [" "; nbsp; bytes [9]; bytes [239; 187; 191]].

(** ** Invariants of a run *)


(** At most one of the menu, the URL bar and the About screen is open. *)
Definition oneOverlay (s : State) : Prop :=
  (isMenuOpen s && isUrlBarOpen s
   || isMenuOpen s && isAboutOpen s
   || isUrlBarOpen s && isAboutOpen s) = false.

(** The welcome screen with the menu open. *)
Definition menuOnWelcome : State := openMenu initialState.

(** ** Link selection and the arrow keys *)

(** [((index % n) + n) % n], [%] being JavaScript's remainder, which has
    the sign of the dividend. *)
Definition wrapIndex (index n : Z) : Z := Z.rem (Z.rem index n + n) n.

(** [arr[i]] for a number [i]: [None] is [undefined]. *)
Definition at_index {A : Type} (arr : list A) (i : Z) : option A :=
  if (i <? 0)%Z then None else arr !! Z.to_nat i.

(** [selectLink(index)], on the links the reader holds (in document
    order).  Of the selected link the state keeps the index; the class,
    the focus and the scroll position are in the page. *)
Definition selectLink (links : list Link) (index : Z) (s : State) : State :=
  let sorted := getSortedLinks links in
  if Nat.eqb (List.length sorted) 0 then s
  else
    let index := wrapIndex index (Z.of_nat (List.length sorted)) in
    let s := clearLinkSelection s in
    match at_index sorted index with
    | None => s
    | Some _ => set_selectedLinkIndex index s
    end.

(** The [keydown] listener on ArrowDown ([down]) and ArrowUp in the
    reader, up to the menu block; [nearest] is what
    [findNearestLinkIndex] returns for the direction. *)
Definition keydownArrow (down : bool) (links : list Link) (nearest : Z)
    (s : State) : State :=
  if isAboutOpen s then s
  else if negb (isMenuOpen s) && negb (isUrlBarOpen s) && negb (isAboutOpen s)
  then
    let sorted := getSortedLinks links in
    if Nat.eqb (List.length sorted) 0 then s
    else if negb (selectedLinkIndex s =? -1)%Z
    then selectLink links
           (if down then selectedLinkIndex s + 1 else selectedLinkIndex s - 1)%Z
           s
    else if (nearest =? -1)%Z
    then selectLink links
           (if down then 0 else Z.of_nat (List.length sorted) - 1)%Z s
    else selectLink links nearest s
  else s.

(** The menu item an arrow key focuses, from the index [i] of the focused
    one among [n] items ([-1]: none of them is focused):
    [(i + 1) % n] and [(i - 1 + n) % n]. *)
Definition menuArrowIndex (down : bool) (n i : Z) : Z :=
  if (i =? -1)%Z then 0%Z
  else if down then Z.rem (i + 1) n else Z.rem (i - 1 + n) n.

(** ** Text size and colour mode *)

Definition sizes : list string :=
  ["xsmall"; "small"; "medium"; "large"; "xlarge"].

Definition colors : list string :=
  ["light"; "dark"; "sepia"; "darkblue"; "terminal"].

(** [arr.indexOf(x)] *)
Fixpoint indexOf (x : string) (arr : list string) : Z :=
  match arr with
  | [] => (-1)%Z
  | y :: arr' =>
      if String.eqb y x then 0%Z
      else match indexOf x arr' with
           | Z.neg _ => (-1)%Z
           | i => (i + 1)%Z
           end
  end.

(** [arr[(arr.indexOf(current) + 1) % arr.length]]; the lists of the
    program are not empty, so the element exists. *)
Definition cycleNext (arr : list string) (current : string) : string :=
  match at_index arr (Z.rem (indexOf current arr + 1) (Z.of_nat (List.length arr))) with
  | Some x => x
  | None => EmptyString
  end.

(** Three links one below the other. *)
Definition threeLinks : list Link :=
  [mkLink 0 10 0 None None; mkLink 1 40 0 None None; mkLink 2 70 0 None None].

(** ** [localStorage] behind the two safe accessors

    [localStorage] holds strings by key.  Reading it throws when access is
    denied; writing throws then too, and when the quota is exceeded. *)

Inductive StorageStatus : Type :=
| Available
| Full        (* reads work, writes throw *)
| Denied.     (* reads and writes throw *)

Record Storage : Type := mkStorage {
  items : gmap string string;
  status : StorageStatus
}.

(** [getSafeLocalStorage(key, defaultValue)]:
    [localStorage.getItem(key) || defaultValue], the default also when the
    read throws. *)
Definition getSafeLocalStorage (key defaultValue : string) (st : Storage)
  : string :=
  match status st with
  | Denied => defaultValue
  | _ =>
      match items st !! key with
      | Some v => if truthy v then v else defaultValue
      | None => defaultValue
      end
  end.

(** [setSafeLocalStorage(key, value)]: whether the write went through,
    and the storage after it. *)
Definition setSafeLocalStorage (key value : string) (st : Storage)
  : bool * Storage :=
  match status st with
  | Available => (true, mkStorage (<[key := value]> (items st)) (status st))
  | _ => (false, st)
  end.

(** ** Start and end of a session *)

(** [showWelcome()] *)
Definition showWelcome (s : State) : State :=
  set_currUrl EmptyString (set_reader WelcomeView s).

(** The [DOMContentLoaded] listener on the state [fresh] the script
    starts with. *)
Definition onDOMContentLoaded `{Platform} (st : Storage) (fresh : State)
  : State :=
  let lastUrl := getSafeLocalStorage "lastVisitedUrl" EmptyString st in
  if negb (truthy lastUrl) then showWelcome fresh
  else loadPage lastUrl false fresh.

(** The [beforeunload] listener. *)
Definition onBeforeUnload (s : State) (st : Storage) : Storage :=
  snd (setSafeLocalStorage "lastVisitedUrl" (currUrl s) st).

(** The globals as the script initialises them, on a page whose reader,
    URL bar and loading screen are as [index.html] has them. *)
Definition freshState (r : ReaderView) (input : string) (loader : bool)
  : State :=
  mkState false false false EmptyString [] false (-1) r input loader []
    false None.

Definition emptyStorage : Storage := mkStorage ∅ Available.

(** ** Bookmarks

    A title is a sequence of UTF-16 code units, of which the program only
    asks whether they are white space ([ws], the set of [trim] and of
    [\s]) and which it replaces by the space [sp]; [untitled] is
    ["Untitled Page"]. *)

Section Bookmarks.
Context {C : Type} (ws : C → bool) (sp : C) (untitled : list C).

Fixpoint dropLeadingUnits (t : list C) : list C :=
  match t with
  | [] => []
  | c :: t' => if ws c then dropLeadingUnits t' else t
  end.

Fixpoint dropTrailingUnits (t : list C) : list C :=
  match t with
  | [] => []
  | c :: t' =>
      match dropTrailingUnits t' with
      | [] => if ws c then [] else [c]
      | r => c :: r
      end
  end.

(** [t.trim()] *)
Definition trimUnits (t : list C) : list C :=
  dropTrailingUnits (dropLeadingUnits t).

(** [t.replace(/\s+/g, ' ')]; [inRun] says that the unit before was white
    space. *)
Fixpoint collapseRuns (inRun : bool) (t : list C) : list C :=
  match t with
  | [] => []
  | c :: t' =>
      if ws c then (if inRun then collapseRuns true t'
                    else sp :: collapseRuns true t')
      else c :: collapseRuns false t'
  end.

(** [text.trim().replace(/\s+/g, ' ').substring(0, 20)] *)
Definition normalizeTitle (text : list C) : list C :=
  List.firstn 20 (collapseRuns false (trimUnits text)).

(** No white space at the start when [prev] is set, and no two white
    space units in a row. *)
Fixpoint spacedOnce (prev : bool) (t : list C) : bool :=
  match t with
  | [] => true
  | c :: t' => negb (prev && ws c) && spacedOnce (ws c) t'
  end.

Record Bookmark : Type := mkBookmark {
  bmTitle : list C;
  bmUrl : string
}.

(** What is stored under the key [bookmarks]: nothing, a string that
    [JSON.parse] rejects, or the JSON of a list of bookmarks, which
    [JSON.parse] turns back into the list. *)
Inductive BookmarkSlot : Type :=
| Missing
| Garbage
| Saved (l : list Bookmark).

Record BookmarkStore : Type := mkBookmarkStore {
  slot : BookmarkSlot;
  storeStatus : StorageStatus
}.

(** [JSON.parse(getSafeLocalStorage('bookmarks', "[]"))]; [None] when
    [JSON.parse] throws. *)
Definition readBookmarks (st : BookmarkStore) : option (list Bookmark) :=
  match storeStatus st with
  | Denied => Some []
  | _ =>
      match slot st with
      | Missing => Some []
      | Garbage => None
      | Saved l => Some l
      end
  end.

(** [setSafeLocalStorage('bookmarks', JSON.stringify(l))] *)
Definition writeBookmarks (l : list Bookmark) (st : BookmarkStore)
  : bool * BookmarkStore :=
  match storeStatus st with
  | Available => (true, mkBookmarkStore (Saved l) (storeStatus st))
  | _ => (false, st)
  end.

(** What the menu shows. *)
Inductive MenuScreen : Type :=
| MainMenu
| BookmarkList (shown : list Bookmark)
| ConfirmDelete (index : Z)
| ConfirmClearAll.

Record Shell : Type := mkShell {
  nav : State;
  store : BookmarkStore;
  screen : MenuScreen
}.

(** [showBookmarks()] *)
Definition showBookmarks (sh : Shell) : Shell :=
  match readBookmarks (store sh) with
  | Some b => mkShell (nav sh) (store sh) (BookmarkList b)
  | None =>
      mkShell (nav sh) (snd (writeBookmarks [] (store sh))) (BookmarkList [])
  end.

(** [arr.splice(index, 1)]: a negative start counts from the end, a start
    beyond the end removes nothing. *)
Definition spliceStart (index : Z) (len : nat) : nat :=
  if (index <? 0)%Z then Z.to_nat (Z.max (Z.of_nat len + index) 0)
  else Z.to_nat (Z.min index (Z.of_nat len)).

Definition spliceOne (index : Z) (l : list Bookmark) : list Bookmark :=
  delete (spliceStart index (List.length l)) l.

Definition notify (message : string) (isError : bool) (sh : Shell) : Shell :=
  mkShell (showNotification message isError (nav sh)) (store sh) (screen sh).

Definition closeMenuOf (sh : Shell) : Shell :=
  mkShell (closeMenu (nav sh)) (store sh) (screen sh).

(** The bookmark actions of [handleMenuAction]; [heading] is the
    [innerText] of the first [h1] or [h2] of the page, when there is
    one, and an index is the [data-index] of the focused item. *)
Inductive BookmarkAction : Type :=
| ActAddBookmark (heading : option (list C))
| ActViewBookmarks
| ActMainMenu
| ActDeleteBookmark (index : Z)
| ActConfirmDeleteBookmark (index : Z)
| ActCancelDelete
| ActConfirmClearAll
| ActReallyClearAll
| ActCancelClearAll.

Definition handleBookmarkAction (a : BookmarkAction) (sh : Shell) : Shell :=
  match a with
  | ActAddBookmark heading =>
      if negb (truthy (currUrl (nav sh)))
      then closeMenuOf (notify "Cannot bookmark the default homepage" true sh)
      else
        match readBookmarks (store sh) with
        | None => closeMenuOf (notify "Failed to save bookmark" true sh)
        | Some b =>
            let text :=
              match heading with
              | Some (c :: t) => c :: t
              | _ => untitled
              end in
            let b' :=
              (b ++ [mkBookmark (normalizeTitle text) (currUrl (nav sh))])%list in
            let '(ok, st') := writeBookmarks b' (store sh) in
            closeMenuOf
              (notify (if ok then "Bookmark saved!"
                       else "Storage full - bookmark may not save")
                 (negb ok) (mkShell (nav sh) st' (screen sh)))
        end
  | ActViewBookmarks => showBookmarks sh
  | ActMainMenu => mkShell (nav sh) (store sh) MainMenu
  | ActDeleteBookmark index =>
      match readBookmarks (store sh) with
      | None => sh   (* [JSON.parse] throws out of the listener *)
      | Some _ => mkShell (nav sh) (store sh) (ConfirmDelete index)
      end
  | ActConfirmDeleteBookmark index =>
      match readBookmarks (store sh) with
      | None => notify "Failed to delete bookmark" true sh
      | Some b =>
          let st' := snd (writeBookmarks (spliceOne index b) (store sh)) in
          showBookmarks
            (notify "Bookmark deleted" false (mkShell (nav sh) st' (screen sh)))
      end
  | ActCancelDelete => showBookmarks sh
  | ActConfirmClearAll => mkShell (nav sh) (store sh) ConfirmClearAll
  | ActReallyClearAll =>
      let st' := snd (writeBookmarks [] (store sh)) in
      showBookmarks
        (notify "All bookmarks deleted" false (mkShell (nav sh) st' (screen sh)))
  | ActCancelClearAll => showBookmarks sh
  end.
End Bookmarks.

(** Titles of ASCII characters, for the examples. *)
Definition asciiTitle (s : string) : list ascii := list_ascii_of_string s.

Definition sampleBookmarks : list (@Bookmark ascii) :=
  [mkBookmark (asciiTitle "First") "https://one.example/";
   mkBookmark (asciiTitle "Second") "https://two.example/";
   mkBookmark (asciiTitle "Third") "https://three.example/"].

(** The bookmark list on screen, three bookmarks stored, a page loaded. *)
Definition bookmarkShell : @Shell ascii :=
  mkShell (openMenu atPageA) (mkBookmarkStore (Saved sampleBookmarks) Available)
    (BookmarkList sampleBookmarks).

(** ** [findNearestLinkIndex]

    The function computes with JavaScript numbers; the arithmetic stays a
    parameter here: addition, subtraction, halving ([/ 2] and [* 0.5]),
    [Math.abs], the tests [>= 0] and [<= 0], the comparison [<] of two
    scores, and [< Infinity]. *)

Section Nearest.
Context {num : Type} (add sub : num → num → num) (half abs : num → num)
  (ltb : num → num → bool) (nonneg nonpos belowInfinity : num → bool).

(** What [getBoundingClientRect()] gives for a link. *)
Record Box : Type := mkBox {
  boxTop : num;
  boxHeight : num
}.

(** The score of one link, from [linkCenter] to the two halvings. *)
Definition linkScore (direction : string) (viewportCenter : num) (r : Box)
  : num :=
  let linkCenter := add (boxTop r) (half (boxHeight r)) in
  let delta := sub linkCenter viewportCenter in
  let score := abs delta in
  let score :=
    if String.eqb direction "down" && nonneg delta then half score else score in
  if String.eqb direction "up" && nonpos delta then half score else score.

(** [score < bestScore], [None] being [Infinity]. *)
Definition betterThan (score : num) (bestScore : option num) : bool :=
  match bestScore with
  | None => belowInfinity score
  | Some b => ltb score b
  end.

(** The [for] loop from index [i] on, with [bestIndex] and [bestScore]. *)
Fixpoint scanLinks (scores : list num) (i : Z) (bestIndex : Z)
    (bestScore : option num) : Z :=
  match scores with
  | [] => bestIndex
  | score :: rest =>
      if betterThan score bestScore
      then scanLinks rest (i + 1) i (Some score)
      else scanLinks rest (i + 1) bestIndex bestScore
  end.

(** [findNearestLinkIndex(direction, links)], the reader being there;
    [readerTop] and [clientHeight] are those of the reader. *)
Definition findNearestLinkIndex (direction : string)
    (readerTop clientHeight : num) (rects : list Box) : Z :=
  match rects with
  | [] => (-1)%Z
  | _ =>
      let viewportCenter := add readerTop (half clientHeight) in
      scanLinks (List.map (linkScore direction viewportCenter) rects)
        0 (-1) None
  end.
End Nearest.

(** Exact arithmetic on rationals, for the examples: it is that of the
    program as long as no operation rounds, as with pixel positions and
    their halves.  Links of height 0 at 100 and 400 below a reader at the
    top whose centre is at 300. *)
Definition rational (n : Z) : QArith_base.Q := QArith_base.Qmake n 1.

Definition Qhalf (x : QArith_base.Q) : QArith_base.Q :=
  QArith_base.Qmult x (QArith_base.Qmake 1 2).

Definition Qltb (x y : QArith_base.Q) : bool :=
  negb (QArith_base.Qle_bool y x).

Definition nearestOnRationals (direction : string)
    (rects : list (@Box QArith_base.Q)) : Z :=
  findNearestLinkIndex QArith_base.Qplus QArith_base.Qminus Qhalf Qabs.Qabs
    Qltb
    (λ x, QArith_base.Qle_bool (rational 0) x)
    (λ x, QArith_base.Qle_bool x (rational 0))
    (λ _, true)
    direction (rational 0) (rational 600) rects.

Definition twoBoxes : list (@Box QArith_base.Q) :=
  [mkBox (rational 100) (rational 0); mkBox (rational 400) (rational 0)].

(** ** [updateSoftkeyLabels]

    The texts written to the left, centre and right soft-key labels;
    [linkInPage] says that the page has a link marked selected or
    focused in the reader. *)
Definition updateSoftkeyLabels (linkInPage : bool) (s : State)
  : string * string * string :=
  if isAboutOpen s then (EmptyString, "CLOSE", EmptyString)
  else if isUrlBarOpen s then ("Cancel", "GO", EmptyString)
  else if isMenuOpen s then (EmptyString, "SELECT", "Close")
  else
    let readerHasSelectedLink :=
      negb (selectedLinkIndex s =? -1)%Z || linkInPage in
    if readerHasSelectedLink then ("URL", "OPEN", "Menu")
    else ("URL",
          match historyStack s with
          | [] => EmptyString
          | _ => "BACK"
          end,
          "Menu").

(** A page shown, with one earlier page on the history stack. *)
Definition onSecondPage : State :=
  set_historyStack ["https://earlier.example/"] atPageA.

(** ** The service worker ([src/sw.js]) *)

Definition CACHE_NAME : string := "violoncello-v1.0.13".

Record Response : Type := mkResponse {
  responseStatus : Z;
  responseIsError : bool;     (* [response.type === 'error'] *)
  responseBody : string
}.

(** The cache storage: the caches by name, in the order of [caches.keys()],
    each one a map from request URL to response. *)
Definition CacheStorage : Type := list (string * gmap string Response).

(** [caches.match(request)]: the first cache that has the URL answers. *)
Fixpoint cachesMatch (url : string) (cs : CacheStorage) : option Response :=
  match cs with
  | [] => None
  | (_, cache) :: cs' =>
      match cache !! url with
      | Some r => Some r
      | None => cachesMatch url cs'
      end
  end.

(** The [activate] listener: every cache with another name is deleted. *)
Definition onActivate (cs : CacheStorage) : CacheStorage :=
  List.filter (λ c, String.eqb (fst c) CACHE_NAME) cs.

(** What the [fetch] listener answers: nothing (the request is left to
    the browser), or the response handed to [respondWith] ([None]:
    [undefined], when the offline page is not cached either), together
    with the entry it asks to be put into the cache [CACHE_NAME]. *)
Inductive FetchAnswer : Type :=
| NotHandled
| Responded (r : option Response) (toCache : option (string * Response)).

(** The [fetch] listener; [network] is how [fetch(event.request)] ends
    ([None]: it rejects). *)
Definition onFetch (method url : string) (network : option Response)
    (cs : CacheStorage) : FetchAnswer :=
  if negb (String.eqb method "GET") then NotHandled
  else
    match cachesMatch url cs with
    | Some r => Responded (Some r) None
    | None =>
        match network with
        | Some r =>
            if negb (responseStatus r =? 200)%Z || responseIsError r
            then Responded (Some r) None
            else Responded (Some r) (Some (url, r))
        | None => Responded (cachesMatch "/index.html" cs) None
        end
    end.

(** An old cache and the current one, both holding the application
    script. *)
Definition oldAndNewCaches : CacheStorage :=
  [("violoncello-v1.0.12",
    {[ "/src/app.js" := mkResponse 200 false "old script" ]});
   (CACHE_NAME,
    {[ "/src/app.js" := mkResponse 200 false "new script" ]})].
(* ================================================================== *)
(** * Theorems *)

(** Splits a goal on every test of a handler. *)
Ltac split_tests :=
  repeat match goal with
         | |- context [if ?b then _ else _] => destruct b eqn:?
         | |- context [match ?o with Some _ => _ | None => _ end] =>
             destruct o eqn:?
         end.

(** ** Trees *)




(** ** The scraper *)




Section ScraperFacts.
Context `{Platform}.






End ScraperFacts.

(** ** The history stack *)

Lemma truthy_true s : truthy s = true ↔ s ≠ EmptyString.
Proof.
  unfold truthy. destruct (String.eqb_spec s EmptyString); simpl; split;
    congruence.
Qed.

Lemma truthy_false s : truthy s = false ↔ s = EmptyString.
Proof.
  unfold truthy. destruct (String.eqb_spec s EmptyString); simpl; split;
    congruence.
Qed.

Lemma leavesPage_true isBack cur url :
  leavesPage isBack cur url = true ↔
  isBack = false ∧ cur ≠ EmptyString ∧ cur ≠ url.
Proof.
  unfold leavesPage. rewrite !andb_true_iff, !negb_true_iff, truthy_true.
  destruct (String.eqb_spec cur url); intuition congruence.
Qed.

Lemma pushHistory_length c h :
  (List.length h ≤ MAX_HISTORY)%nat →
  (List.length (pushHistory c h) ≤ MAX_HISTORY)%nat.
Proof.
  unfold pushHistory, MAX_HISTORY. intros Hh.
  destruct (Nat.ltb_spec 50 (List.length (h ++ [c]))) as [Hlt|Hge].
  - destruct h as [|x h]; simpl in *; [lia|].
    rewrite length_app in *. simpl in *. lia.
  - exact Hge.
Qed.

Lemma pushHistory_full c h :
  List.length h = MAX_HISTORY → pushHistory c h = (tail h ++ [c])%list.
Proof.
  unfold pushHistory, MAX_HISTORY. intros Hh.
  destruct (Nat.ltb_spec 50 (List.length (h ++ [c]))) as [Hlt|Hge].
  - destruct h as [|x h]; [discriminate Hh|reflexivity].
  - rewrite length_app in Hge. simpl in Hge. lia.
Qed.

Lemma pushHistory_room c h :
  (List.length h < MAX_HISTORY)%nat → pushHistory c h = (h ++ [c])%list.
Proof.
  unfold pushHistory, MAX_HISTORY. intros Hh.
  destruct (Nat.ltb_spec 50 (List.length (h ++ [c]))) as [Hlt|Hge];
    [|reflexivity].
  rewrite length_app in Hlt. simpl in Hlt. lia.
Qed.

Lemma pushHistory_last c h :
  (List.length h ≤ MAX_HISTORY)%nat → last (pushHistory c h) = Some c.
Proof.
  intros Hh. destruct (decide (List.length h = MAX_HISTORY)) as [Hfull|Hne].
  - rewrite pushHistory_full by exact Hfull. apply last_snoc.
  - rewrite pushHistory_room by lia. apply last_snoc.
Qed.

Lemma removelast_length_le {A} (l : list A) :
  (List.length (removelast l) ≤ List.length l)%nat.
Proof.
  induction l as [|x [|y l] IH]; simpl in *; lia.
Qed.

Lemma popHistory_Some h top rest :
  popHistory h = Some (top, rest) → last h = Some top ∧ rest = removelast h.
Proof.
  unfold popHistory. destruct (last h); [|discriminate].
  intros [= -> ->]. done.
Qed.

Lemma popHistory_None h : popHistory h = None → h = [].
Proof.
  unfold popHistory. destruct (last h) eqn:Hl; [discriminate|].
  intros _. by apply last_None.
Qed.

Lemma popHistory_snoc h c : popHistory (h ++ [c]) = Some (c, h).
Proof.
  unfold popHistory. rewrite last_snoc. by rewrite removelast_last.
Qed.

Lemma toggleUrlBar_currUrl s : currUrl (toggleUrlBar s) = currUrl s.
Proof. unfold toggleUrlBar. cbn. by destruct (negb _). Qed.

Lemma toggleUrlBar_history s : historyStack (toggleUrlBar s) = historyStack s.
Proof. unfold toggleUrlBar. cbn. by destruct (negb _). Qed.

Section LoaderFacts.
Context `{Platform}.


(** A push happens only under the guard of the history block. *)
Lemma loadPage_history url isBack s :
  historyStack (loadPage url isBack s) = historyStack s
  ∨ (isLoading s = false ∧ isBack = false
     ∧ currUrl s ≠ EmptyString ∧ currUrl s ≠ url
     ∧ historyStack (loadPage url isBack s)
       = pushHistory (currUrl s) (historyStack s)).
Proof.
  unfold loadPage.
  destruct (isLoading s) eqn:Hl; [by left|].
  destruct (negb (truthy url)); [by left|].
  cbn [currUrl set_loaderHidden set_isLoading historyStack].
  destruct (leavesPage isBack (currUrl s) url) eqn:Hg.
  - apply leavesPage_true in Hg as (Hb & Hc & Hu). right.
    repeat split; try assumption. split_tests; reflexivity.
  - left. split_tests; reflexivity.
Qed.

Lemma loadPage_historyChange url isBack s :
  historyChange s (historyStack (loadPage url isBack s)).
Proof.
  destruct (loadPage_history url isBack s) as [->|(_ & _ & Hc & Hu & ->)].
  - constructor.
  - by apply (hc_push s url).
Qed.

(** A settled request leaves the history stack alone. *)
Lemma loadPage_resume_history o s :
  historyStack (loadPage_resume o s) = historyStack s.
Proof. unfold loadPage_resume. destruct o; split_tests; reflexivity. Qed.

Lemma handleUrlSubmit_historyChange s :
  historyChange s (historyStack (handleUrlSubmit s)).
Proof.
  unfold handleUrlSubmit.
  assert (Ht : ∀ url, historyChange s
                 (historyStack (loadPage url false (toggleUrlBar s)))).
  { intros url.
    destruct (loadPage_history url false (toggleUrlBar s))
      as [->|(_ & _ & Hc & Hu & ->)];
      rewrite ?toggleUrlBar_currUrl, ?toggleUrlBar_history in *.
    - constructor.
    - by apply (hc_push s url). }
  destruct (negb (truthy _)); [exact (hc_same s)|].
  destruct (_ || _); [apply Ht|].
  destruct (URL_parse _ None); [apply Ht|exact (hc_same s)].
Qed.

Lemma keydownBackspace_history s :
  historyStack (keydownBackspace s) = historyStack s
  ∨ historyStack (keydownBackspace s) = removelast (historyStack s).
Proof.
  unfold keydownBackspace, closeAbout, closeMenu.
  destruct (isAboutOpen s); [by left|].
  destruct (isUrlBarOpen s) eqn:Hu.
  { destruct (Nat.eqb _ 0); [|by left].
    left. apply (toggleUrlBar_history s). }
  destruct (isMenuOpen s); [by left|].
  destruct (popHistory (historyStack s)) as [[top rest]|] eqn:Hp; [|by left].
  apply popHistory_Some in Hp as [_ ->]. right.
  destruct (loadPage_history top true (set_historyStack (removelast (historyStack s)) s))
    as [->|(_ & Hb & _)]; [reflexivity|discriminate Hb].
Qed.

(** Every event changes the history stack in one of the three ways. *)
Lemma step_historyChange s e : historyChange s (historyStack (step s e)).
Proof.
  destruct e as [v| | |item h| | |picked|h|o]; cbn [step].
  - exact (hc_same s).
  - split_tests; try exact (hc_same s).
    rewrite toggleUrlBar_history. constructor.
  - unfold closeAbout, closeMenu, openMenu. split_tests; exact (hc_same s).
  - destruct (isAboutOpen s); [exact (hc_same s)|].
    destruct (isUrlBarOpen s); [apply handleUrlSubmit_historyChange|].
    destruct (isMenuOpen s).
    + destruct item as [[| |u| |]|]; cbn; try exact (hc_same s).
      * apply (loadPage_historyChange (currUrl s) false s).
      * apply (loadPage_historyChange u false s).
    + destruct h; [apply loadPage_historyChange|exact (hc_same s)].
  - unfold closeMenu, clearLinkSelection. split_tests; exact (hc_same s).
  - destruct (keydownBackspace_history s) as [->| ->]; constructor.
  - destruct (overlayOpen s); exact (hc_same s).
  - destruct (overlayOpen s); [exact (hc_same s)|apply loadPage_historyChange].
  - rewrite loadPage_resume_history. constructor.
Qed.

Lemma historyChange_length s h :
  historyChange s h →
  (List.length (historyStack s) ≤ MAX_HISTORY)%nat →
  (List.length h ≤ MAX_HISTORY)%nat.
Proof.
  intros [| |url _ _] Hs.
  - exact Hs.
  - pose proof (removelast_length_le (historyStack s)). lia.
  - by apply pushHistory_length.
Qed.

Lemma run_snoc s es e : run s (es ++ [e]) = step (run s es) e.
Proof. unfold run. by rewrite fold_left_app. Qed.

Lemma run_history_bounded es :
  (List.length (historyStack (run initialState es)) ≤ MAX_HISTORY)%nat.
Proof.
  induction es as [|e es IH] using rev_ind.
  - unfold MAX_HISTORY. simpl. lia.
  - rewrite run_snoc. eapply historyChange_length; [|exact IH].
    apply step_historyChange.
Qed.
End LoaderFacts.

(** ** The reader *)

Section ReaderFacts.
Context `{Platform}.







End ReaderFacts.

(* ------------------------------------------------------------------ *)
(** ** C1: the published tree holds no script and no inline handler *)



(* ------------------------------------------------------------------ *)
(** ** C6: the history stack is bounded and evicts its oldest entry *)

(** C6. After every sequence of events from the start the history stack
    holds at most 50 entries; pushing onto a stack of 50 drops the oldest
    (first) entry and keeps the pushed one last; [loadPage] pushes only on
    a forward navigation away from a non-empty location that differs from
    the target, and what it pushes is that location; and no event changes
    the stack other than by such a push or by a pop. *)
Theorem history_is_bounded_and_evicts_oldest `{Platform} :
  MAX_HISTORY = 50%nat
  ∧ (∀ es, (List.length (historyStack (run initialState es)) ≤ 50)%nat)
  ∧ (∀ c h, List.length h = 50%nat →
       pushHistory c h = (tail h ++ [c])%list
       ∧ List.length (pushHistory c h) = 50%nat
       ∧ last (pushHistory c h) = Some c)
  ∧ (∀ url isBack s,
       historyStack (loadPage url isBack s) = historyStack s
       ∨ (isBack = false ∧ currUrl s ≠ EmptyString ∧ currUrl s ≠ url
          ∧ historyStack (loadPage url isBack s)
            = pushHistory (currUrl s) (historyStack s)))
  ∧ (∀ s e, historyChange s (historyStack (step s e))).
Proof.
  split; [reflexivity|]. split; [apply run_history_bounded|].
  split; [|split].
  - intros c h Hh. rewrite pushHistory_full by exact Hh.
    split; [reflexivity|]. split; [|apply last_snoc].
    destruct h as [|x h]; [discriminate Hh|].
    simpl in *. rewrite length_app. simpl. lia.
  - intros url isBack s.
    destruct (loadPage_history url isBack s) as [Heq|(_ & Hb & Hc & Hu & Heq)];
      [by left|by right].
  - apply step_historyChange.
Qed.

Lemma history_is_bounded_and_evicts_oldest_witness :
  List.length fiftyPages = 50%nat
  ∧ pushHistory "https://newest.example/" fiftyPages
    = (repeat "https://page.example/" 49 ++ ["https://newest.example/"])%list
  ∧ last (pushHistory "https://newest.example/" fiftyPages)
    = Some "https://newest.example/".
Proof.
  assert (Hlen : List.length fiftyPages = 50%nat) by reflexivity.
  destruct (@history_is_bounded_and_evicts_oldest refPlatform)
    as (_ & _ & Hpush & _).
  destruct (Hpush "https://newest.example/" fiftyPages Hlen)
    as (Heq & _ & Hlast).
  split; [exact Hlen|]. split; [exact Heq|exact Hlast].
Defined.

(* ------------------------------------------------------------------ *)
(** ** C2: failed loads *)

Section FailedLoads.
Context `{Platform}.

(** The state in which [loadPage] leaves a request in flight. *)
Lemma loadPage_inFlight url isBack s :
  isLoading s = false → url ≠ EmptyString →
  xhr_open_ok (unwrapRedirector url) = true →
  loadPage url isBack s
  = set_inFlight (Some (unwrapRedirector url))
      ((if leavesPage isBack (currUrl s) url
        then set_historyStack (pushHistory (currUrl s) (historyStack s))
        else id)
         (set_loaderHidden false (set_isLoading true s))).
Proof.
  intros Hl Hu Hx. unfold loadPage. rewrite Hl.
  apply truthy_true in Hu. rewrite Hu. cbn [negb currUrl set_loaderHidden
    set_isLoading historyStack].
  destruct (leavesPage isBack (currUrl s) url); by rewrite Hx.
Qed.

End FailedLoads.




(* ------------------------------------------------------------------ *)
(** ** C10: Backspace while a request is in flight *)

(** C10. When a request is in flight, no overlay is open and the history
    stack is not empty, Backspace removes the most recent entry and does
    nothing else: the pop is evaluated before [loadPage] is entered, and
    [loadPage] returns at its busy guard.  The current location, the
    reader, the request in flight and the notifications are as before,
    so the popped entry is lost without a trace. *)
Theorem backspace_while_loading_drops_entry `{Platform} (s : State) :
  isLoading s = true →
  isMenuOpen s = false → isUrlBarOpen s = false → isAboutOpen s = false →
  historyStack s ≠ [] →
  ∃ top,
    last (historyStack s) = Some top
    ∧ keydownBackspace s = set_historyStack (removelast (historyStack s)) s
    ∧ historyStack s = (historyStack (keydownBackspace s) ++ [top])%list
    ∧ currUrl (keydownBackspace s) = currUrl s
    ∧ reader (keydownBackspace s) = reader s
    ∧ inFlight (keydownBackspace s) = inFlight s
    ∧ isLoading (keydownBackspace s) = true
    ∧ notifications (keydownBackspace s) = notifications s.
Proof.
  intros Hl Hm Hu Ha Hh.
  destruct (historyStack s) as [|x h] eqn:Hs using rev_ind; [done|].
  clear IHh Hh. exists x.
  assert (Hk : keydownBackspace s = set_historyStack h s).
  { unfold keydownBackspace. rewrite Ha, Hu, Hm, Hs, popHistory_snoc.
    unfold loadPage. cbn [isLoading set_historyStack]. by rewrite Hl. }
  rewrite Hk, removelast_last, last_snoc. cbn. by rewrite Hl.
Qed.

Lemma backspace_while_loading_drops_entry_witness :
  isLoading (@run refPlatform initialState busyOnB) = true
  ∧ historyStack (@run refPlatform initialState busyOnB)
    = ["https://a.example/"]
  ∧ ∃ top,
      last (historyStack (@run refPlatform initialState busyOnB)) = Some top
      ∧ @keydownBackspace refPlatform (@run refPlatform initialState busyOnB)
        = set_historyStack
            (removelast (historyStack (@run refPlatform initialState busyOnB)))
            (@run refPlatform initialState busyOnB)
      ∧ historyStack (@run refPlatform initialState busyOnB)
        = (historyStack
             (@keydownBackspace refPlatform
                (@run refPlatform initialState busyOnB)) ++ [top])%list
      ∧ currUrl (@keydownBackspace refPlatform
                   (@run refPlatform initialState busyOnB))
        = currUrl (@run refPlatform initialState busyOnB).
Proof.
  split; [reflexivity|]. split; [reflexivity|].
  destruct (@backspace_while_loading_drops_entry refPlatform
              (@run refPlatform initialState busyOnB)
              eq_refl eq_refl eq_refl eq_refl)
    as (top & Ht & Hk & Hh & Hc & _).
  - vm_compute. discriminate.
  - exists top. split; [exact Ht|]. split; [exact Hk|].
    split; [exact Hh|exact Hc].
Defined.

(* ------------------------------------------------------------------ *)
(** ** C9: a bookmark, then back *)



Section RoundTrip.
Context `{Platform}.

End RoundTrip.




(* ------------------------------------------------------------------ *)
(** ** C3: the [href] of a hyperlink *)






(** An [a] element that is not in the HTML namespace is no hyperlink for
    the program: its [tagName] is in lower case, and the callback leaves
    its [href] and its [target] as they are. *)
Example foreign_a_is_left_alone :
  tagName mathLink = "a"
  ∧ @cleanElement refPlatform "https://example.com/page" mathLink = mathLink.
Proof. split; vm_compute; reflexivity. Qed.

(* ------------------------------------------------------------------ *)
(** ** C4: the redirect wrapper *)

Section Wrapper.
Context `{Platform}.

Lemma unwrapRedirector_wraps url target :
  wrapsTarget url target → unwrapRedirector url = target.
Proof.
  intros [p u q Hp Hhost Hpath Hget Hu Hdec Hq Hok].
  apply truthy_true in Hu.
  unfold unwrapRedirector.
  by rewrite Hp, Hhost, Hpath, Hget, Hu, Hdec, Hq, Hok.
Qed.

(** Whatever [unwrapRedirector] returns other than its argument is a
    wrapped target. *)
Lemma unwrapRedirector_cases url :
  unwrapRedirector url = url ∨ wrapsTarget url (unwrapRedirector url).
Proof.
  unfold unwrapRedirector.
  destruct (URL_parse url None) as [p|] eqn:Hp; [|by left].
  destruct (includes (hostname p) "duckduckgo.com") eqn:Hhost; [|by left].
  destruct (startsWith (pathname p) "/l/") eqn:Hpath; [|by left].
  cbn [andb].
  destruct (URLSearchParams_get (search p) "uddg") as [u|] eqn:Hget;
    [|by left].
  destruct (truthy u) eqn:Hu; [|by left].
  destruct (decodeURIComponent u) as [d|] eqn:Hdec; [|by left].
  destruct (URL_parse d None) as [q|] eqn:Hq; [|by left].
  destruct (inList (protocol q) allowedProtocols) eqn:Hok; [|by left].
  right. apply truthy_true in Hu. by econstructor.
Qed.
End Wrapper.

(** C4, as amended. For every URL that parses with a host name containing
    [duckduckgo.com], a path starting with [/l/] and a non-empty [uddg]
    parameter that percent-decodes to an absolute URL with a scheme among
    http, https, mailto and ftp, [loadPage] requests that decoded target;
    for every other URL (also when a parse or the decoding fails, or the
    scheme is another one) it requests the URL it was given.  In both
    cases the request is sent without an error view or a notice. *)
Theorem redirect_wrapper_is_unwrapped `{Platform} (url : string) :
  (∀ target, wrapsTarget url target → unwrapRedirector url = target)
  ∧ ((∀ target, ¬ wrapsTarget url target) → unwrapRedirector url = url)
  ∧ (∀ s isBack,
       isLoading s = false → url ≠ EmptyString →
       xhr_open_ok (unwrapRedirector url) = true →
       inFlight (loadPage url isBack s) = Some (unwrapRedirector url)
       ∧ reader (loadPage url isBack s) = reader s
       ∧ notifications (loadPage url isBack s) = notifications s).
Proof.
  split; [apply unwrapRedirector_wraps|]. split.
  - intros Hnone. destruct (unwrapRedirector_cases url) as [Heq|Hw];
      [exact Heq|]. by apply Hnone in Hw.
  - intros s isBack Hl Hu Hx. rewrite (loadPage_inFlight url isBack s Hl Hu Hx).
    destruct (leavesPage isBack (currUrl s) url); done.
Qed.

Lemma redirect_wrapper_is_unwrapped_witness :
  @unwrapRedirector refPlatform
    "https://duckduckgo.com/l/?uddg=https%3A%2F%2Fexample.org%2Fa&rut=0"
  = "https://example.org/a"
  ∧ inFlight (@loadPage refPlatform
                "https://duckduckgo.com/l/?uddg=https%3A%2F%2Fexample.org%2Fa&rut=0"
                false initialState)
    = Some (@unwrapRedirector refPlatform
              "https://duckduckgo.com/l/?uddg=https%3A%2F%2Fexample.org%2Fa&rut=0").
Proof.
  destruct (@redirect_wrapper_is_unwrapped refPlatform
              "https://duckduckgo.com/l/?uddg=https%3A%2F%2Fexample.org%2Fa&rut=0")
    as (Hwrap & _ & Hload).
  split.
  - apply Hwrap.
    apply (@wraps_intro refPlatform _ _
             (mkURL "https:" "duckduckgo.com" "/l/"
                "?uddg=https%3A%2F%2Fexample.org%2Fa&rut=0"
                "https://duckduckgo.com/l/?uddg=https%3A%2F%2Fexample.org%2Fa&rut=0")
             "https://example.org/a"
             (mkURL "https:" "example.org" "/a" "" "https://example.org/a"));
      first [discriminate | vm_compute; reflexivity].
  - apply (Hload initialState false); first [discriminate | reflexivity].
Defined.

(** C4 as it was stated fails for a host that is not the search engine
    but contains its name: the link is unwrapped all the same. *)
Lemma lookalike_host_is_unwrapped :
  @URL_parse refPlatform lookalikeWrapper None
  = Some (mkURL "https:" "duckduckgo.com.evil.example" "/l/"
            "?uddg=https%3A%2F%2Fevil.example%2F" lookalikeWrapper)
  ∧ "duckduckgo.com.evil.example" ≠ "duckduckgo.com"
  ∧ @unwrapRedirector refPlatform lookalikeWrapper = "https://evil.example/"
  ∧ @unwrapRedirector refPlatform lookalikeWrapper ≠ lookalikeWrapper.
Proof.
  repeat split; try (vm_compute; reflexivity); vm_compute; discriminate.
Qed.

(* ------------------------------------------------------------------ *)
(** ** C5: the URL bar *)

Lemma prefix_trans p q s :
  String.prefix p q = true → String.prefix q s = true →
  String.prefix p s = true.
Proof.
  revert q s. induction p as [|a p IH]; intros q s Hpq Hqs.
  - by destruct s.
  - destruct q as [|b q]; [discriminate Hpq|].
    destruct s as [|c s]; [discriminate Hqs|].
    simpl in *. destruct (ascii_dec a b) as [->|]; [|discriminate Hpq].
    destruct (ascii_dec b c) as [->|]; [|discriminate Hqs].
    by apply (IH q s).
Qed.

Lemma hasHttpScheme_startsWith input :
  hasHttpScheme input = true → startsWith input "http" = true.
Proof.
  unfold hasHttpScheme, startsWith. intros [Hp|Hp]%orb_true_iff;
    (eapply prefix_trans; [|exact Hp]); reflexivity.
Qed.

Lemma allChars_app p s1 s2 :
  allChars p s1 = true → allChars p s2 = true → allChars p (s1 ++ s2) = true.
Proof.
  induction s1 as [|c s1 IH]; simpl; [done|].
  intros [Hc H1]%andb_true_iff H2. rewrite Hc. by apply IH.
Qed.

Lemma percentEncodeByte_chars c :
  allChars isEncodedChar (percentEncodeByte c) = true.
Proof. destruct c as [[] [] [] [] [] [] [] []]; reflexivity. Qed.

(** [encodeURIComponent] returns unreserved characters and [%] only. *)
Lemma encodeURIComponent_chars s :
  allChars isEncodedChar (encodeURIComponent s) = true.
Proof.
  induction s as [|c s IH]; [reflexivity|]. simpl.
  apply allChars_app; [|exact IH].
  destruct (isUriUnreserved c) eqn:Hc; [|apply percentEncodeByte_chars].
  simpl. unfold isEncodedChar. by rewrite Hc.
Qed.

(** C5, as amended. For every URL-bar text whose trimmed value [input] is
    not empty: when [input] has no [.] or has a space character, the URL
    bar closes and the page requested is the search URL, whose [q]
    parameter is [input] percent-encoded.  Otherwise the candidate is
    [https://] followed by [input] when [input] does not start with
    [http], and [input] itself when it starts with [http://] or
    [https://]; when the candidate parses as an absolute URL the URL bar
    closes and the candidate is requested, and when it does not, the
    InvalidUrl message is shown and nothing else changes (no navigation,
    the URL bar stays open). *)
Theorem url_bar_input_is_resolved `{Platform} (s : State) :
  trim (urlInput s) ≠ EmptyString →
  ((includes (trim (urlInput s)) "." = false
    ∨ includes (trim (urlInput s)) " " = true) →
   handleUrlSubmit s
   = loadPage ("https://duckduckgo.com/html/?q="
               ++ encodeURIComponent (trim (urlInput s)))
       false (toggleUrlBar s)
   ∧ allChars isEncodedChar (encodeURIComponent (trim (urlInput s))) = true)
  ∧ (includes (trim (urlInput s)) "." = true →
     includes (trim (urlInput s)) " " = false →
     ∀ candidate,
       (startsWith (trim (urlInput s)) "http" = false
        ∧ candidate = "https://" ++ trim (urlInput s))
       ∨ (hasHttpScheme (trim (urlInput s)) = true
          ∧ candidate = trim (urlInput s)) →
       (is_Some (URL_parse candidate None) →
        handleUrlSubmit s = loadPage candidate false (toggleUrlBar s))
       ∧ (URL_parse candidate None = None →
          handleUrlSubmit s = showError invalidUrlMessage s
          ∧ reader (handleUrlSubmit s) = ErrorView invalidUrlMessage
          ∧ inFlight (handleUrlSubmit s) = inFlight s
          ∧ currUrl (handleUrlSubmit s) = currUrl s
          ∧ historyStack (handleUrlSubmit s) = historyStack s
          ∧ isUrlBarOpen (handleUrlSubmit s) = isUrlBarOpen s)).
Proof.
  intros Hne. apply truthy_true in Hne. split.
  - intros Hsearch. split; [|apply encodeURIComponent_chars].
    unfold handleUrlSubmit. rewrite Hne. cbn [negb].
    destruct Hsearch as [-> | ->]; [reflexivity|].
    by rewrite orb_true_r.
  - intros Hdot Hspace candidate Hcand.
    assert (Hc : candidate
                 = if startsWith (trim (urlInput s)) "http"
                   then trim (urlInput s)
                   else "https://" ++ trim (urlInput s)).
    { destruct Hcand as [[-> ->]|[Hs ->]]; [reflexivity|].
      by rewrite (hasHttpScheme_startsWith _ Hs). }
    unfold handleUrlSubmit. rewrite Hne, Hdot, Hspace. cbn [negb orb].
    rewrite <- Hc. split.
    + intros [u ->]. reflexivity.
    + intros ->. done.
Qed.

Lemma url_bar_input_is_resolved_witness :
  @handleUrlSubmit refPlatform (urlBarWith "  example.com ")
  = @loadPage refPlatform "https://example.com" false
      (toggleUrlBar (urlBarWith "  example.com "))
  ∧ @handleUrlSubmit refPlatform (urlBarWith "openai research")
    = @loadPage refPlatform
        ("https://duckduckgo.com/html/?q="
         ++ encodeURIComponent (trim (urlInput (urlBarWith "openai research"))))
        false (toggleUrlBar (urlBarWith "openai research"))
  ∧ encodeURIComponent "openai research" = "openai%20research".
Proof.
  split; [|split; [|reflexivity]].
  - destruct (@url_bar_input_is_resolved refPlatform
                (urlBarWith "  example.com ") ltac:(vm_compute; discriminate))
      as [_ Hurl].
    destruct (Hurl eq_refl eq_refl "https://example.com"
                (or_introl (conj eq_refl eq_refl))) as [Hok _].
    apply Hok. vm_compute. eexists. reflexivity.
  - destruct (@url_bar_input_is_resolved refPlatform
                (urlBarWith "openai research") ltac:(vm_compute; discriminate))
      as [Hsearch _].
    destruct (Hsearch (or_intror eq_refl)) as [Hok _]. exact Hok.
Defined.

(** C5 as it was stated fails for white space other than the space
    character: an input with a dot and a tab is not searched for but
    requested as an address. *)
Lemma tab_is_not_searched :
  trim (urlInput (urlBarWith tabbedInput)) = tabbedInput
  ∧ containsWhiteSpace tabbedInput = true
  ∧ includes tabbedInput " " = false
  ∧ inFlight (@handleUrlSubmit refPlatform (urlBarWith tabbedInput))
    = Some ("https://" ++ tabbedInput)
  ∧ inFlight (@handleUrlSubmit refPlatform (urlBarWith tabbedInput))
    ≠ Some ("https://duckduckgo.com/html/?q=" ++ encodeURIComponent tabbedInput).
Proof.
  repeat split; try (vm_compute; reflexivity). vm_compute. discriminate.
Qed.

(** [trim] removes every white space of ECMAScript, also the no-break
    space: the address between two of them is requested. *)
Example padded_input_is_trimmed :
  trim paddedInput = "example.com"
  ∧ inFlight (@handleUrlSubmit refPlatform (urlBarWith paddedInput))
    = Some "https://example.com".
Proof. split; vm_compute; reflexivity. Qed.

(** The test for a scheme is [startsWith('http')]: a host name that begins
    with these letters gets no [https://] and is rejected, although the
    address with the scheme parses. *)
Example host_starting_with_http_is_rejected :
  @handleUrlSubmit refPlatform (urlBarWith "httpbin.org")
  = showError invalidUrlMessage (urlBarWith "httpbin.org")
  ∧ is_Some (@URL_parse refPlatform "https://httpbin.org" None).
Proof. split; [vm_compute; reflexivity|]. vm_compute. by eexists. Qed.

(* ------------------------------------------------------------------ *)
(** ** C7 and C8: the order of the links *)

Lemma compareTopLeft_le a b : (compareTopLeft a b ≤ 0)%Z ↔ topLeftLe a b.
Proof.
  unfold compareTopLeft, topLeftLe.
  destruct (Z.eqb_spec (top a - top b) 0); lia.
Qed.

Lemma compareTopLeft_gt a b :
  (0 < compareTopLeft a b)%Z →
  topLeftLe b a ∧ (top a ≠ top b ∨ left a ≠ left b).
Proof.
  unfold compareTopLeft, topLeftLe.
  destruct (Z.eqb_spec (top a - top b) 0); lia.
Qed.

Lemma topLeftLe_trans a b c : topLeftLe a b → topLeftLe b c → topLeftLe a c.
Proof. unfold topLeftLe. lia. Qed.

Section SortBy.
Context {A : Type} (key : A → Mapped).

Let cmp (a b : A) : Z := compareTopLeft (key a) (key b).
Let le (a b : A) : Prop := topLeftLe (key a) (key b).
Let same (t l : Z) (x : A) : bool :=
  (top (key x) =? t)%Z && (left (key x) =? l)%Z.

Lemma insertBy_perm x l : insertBy cmp x l ≡ₚ x :: l.
Proof.
  induction l as [|y l IH]; simpl; [done|].
  destruct (cmp x y <=? 0)%Z; [done|].
  rewrite IH. apply Permutation_swap.
Qed.

Lemma insertBy_sorted x l :
  StronglySorted le l → StronglySorted le (insertBy cmp x l).
Proof.
  induction 1 as [|y l Hl IH Hy]; simpl; [repeat constructor|].
  destruct (Z.leb_spec (cmp x y) 0) as [Hle|Hgt].
  - apply compareTopLeft_le in Hle.
    constructor; [by constructor|]. constructor; [exact Hle|].
    eapply Forall_impl; [exact Hy|]. intros z Hz.
    by apply (topLeftLe_trans _ (key y)).
  - apply compareTopLeft_gt in Hgt as [Hyx _]. constructor; [exact IH|].
    rewrite (insertBy_perm x l). by constructor.
Qed.

Lemma insertBy_stable t l0 x l :
  List.filter (same t l0) (insertBy cmp x l) = List.filter (same t l0) (x :: l).
Proof.
  induction l as [|y l IH]; [done|]. cbn [insertBy].
  destruct (Z.leb_spec (cmp x y) 0) as [Hle|Hgt]; [done|].
  apply compareTopLeft_gt in Hgt as [_ Hne].
  cbn [List.filter] in *. rewrite IH.
  destruct (same t l0 x) eqn:Hx; [|done].
  assert (Hy : same t l0 y = false); [|by rewrite Hy].
  unfold same in *. apply andb_true_iff in Hx as [Hxt Hxl].
  apply Z.eqb_eq in Hxt, Hxl. apply andb_false_iff.
  destruct (Z.eqb_spec (top (key y)) t), (Z.eqb_spec (left (key y)) l0);
    auto.
  lia.
Qed.

Lemma arraySort_perm l : arraySort cmp l ≡ₚ l.
Proof.
  induction l as [|x l IH]; [done|]. cbn.
  fold (arraySort cmp l). by rewrite insertBy_perm, IH.
Qed.

Lemma arraySort_sorted l : StronglySorted le (arraySort cmp l).
Proof.
  induction l as [|x l IH]; [constructor|]. cbn.
  by apply insertBy_sorted.
Qed.

Lemma arraySort_stable t l0 l :
  List.filter (same t l0) (arraySort cmp l) = List.filter (same t l0) l.
Proof.
  induction l as [|x l IH]; [done|]. cbn [arraySort fold_right].
  fold (arraySort cmp l). rewrite insertBy_stable. cbn [List.filter].
  by rewrite IH.
Qed.

(** Sorting the mapped objects and taking their elements is sorting the
    elements by their mapped positions. *)
Lemma insertBy_map (f : Mapped → A) x l :
  (∀ y, f (key y) = y) →
  List.map f (insertBy compareTopLeft (key x) (List.map key l))
  = insertBy cmp x (List.map f (List.map key l)).
Proof.
  intros Hf. induction l as [|y l IH]; simpl; [by rewrite Hf|].
  rewrite Hf. unfold cmp at 1.
  destruct (compareTopLeft (key x) (key y) <=? 0)%Z; simpl.
  - by rewrite !Hf.
  - by rewrite Hf, IH.
Qed.

Lemma arraySort_map (f : Mapped → A) l :
  (∀ y, f (key y) = y) →
  List.map f (arraySort compareTopLeft (List.map key l)) = arraySort cmp l.
Proof.
  intros Hf. induction l as [|x l IH]; [done|].
  cbn [List.map arraySort fold_right].
  fold (arraySort compareTopLeft (List.map key l)). fold (arraySort cmp l).
  rewrite <- IH.
  assert (Hk : ∃ l', arraySort compareTopLeft (List.map key l) = List.map key l').
  { clear IH. induction l as [|y l [l' Hl']]; [by exists []|].
    cbn [List.map arraySort fold_right].
    fold (arraySort compareTopLeft (List.map key l)). rewrite Hl'.
    clear Hl'. induction l' as [|z l' [l'' Hl'']]; [by exists [y]|].
    cbn [List.map insertBy].
    destruct (_ <=? 0)%Z; [by exists (y :: z :: l')|].
    rewrite Hl''. by exists (z :: l''). }
  destruct Hk as [l' ->]. rewrite (insertBy_map f x l' Hf).
  by rewrite List.map_map, (List.map_ext _ id), List.map_id.
Qed.
End SortBy.

Lemma getSortedLinks_sortKey links :
  getSortedLinks links
  = arraySort (λ a b, compareTopLeft (sortKey links a) (sortKey links b)) links.
Proof.
  unfold getSortedLinks, sortKey.
  destruct (allZeroTop (List.map measured links));
    by rewrite (arraySort_map _ el).
Qed.

Lemma arraySort_stableSortOf (key : Link → Mapped) links :
  stableSortOf key links
    (arraySort (λ a b, compareTopLeft (key a) (key b)) links).
Proof.
  split.
  - apply arraySort_perm.
  - apply Permutation_length, arraySort_perm.
  - apply arraySort_sorted.
  - intros t l. apply arraySort_stable.
Qed.

Lemma allZeroTop_measured links :
  allZeroTop (List.map measured links) = true
  ↔ ∀ l, l ∈ links → rectTop l = 0%Z.
Proof.
  unfold allZeroTop. rewrite forallb_forall. split.
  - intros Hall l Hl. apply Z.eqb_eq.
    apply (Hall (measured l)). apply in_map. by apply list_elem_of_In.
  - intros Hall m Hm. apply in_map_iff in Hm as (l & <- & Hl).
    apply Z.eqb_eq. apply Hall. by apply list_elem_of_In.
Qed.

(** C7, as amended. For any list of N links, [getSortedLinks] returns a
    permutation of it, of length N, ascending in (top, left) and with the
    links of one position in their input order, where the position of a
    link is the measured one unless every measured top is 0, and is then
    the one given by its [data-top] and [data-left] hints, read by
    [parseInt] as numbers. *)
Theorem ordered_links_stable_sort_of_used_positions (links : list Link) :
  getSortedLinks links ≡ₚ links
  ∧ List.length (getSortedLinks links) = List.length links
  ∧ StronglySorted
      (λ a b, topLeftLe (sortKey links a) (sortKey links b))
      (getSortedLinks links)
  ∧ (∀ t l : Z,
       List.filter
         (λ x, (top (sortKey links x) =? t)%Z && (left (sortKey links x) =? l)%Z)
         (getSortedLinks links)
       = List.filter
           (λ x, (top (sortKey links x) =? t)%Z && (left (sortKey links x) =? l)%Z)
           links)
  ∧ ((∃ l, l ∈ links ∧ rectTop l ≠ 0%Z) → sortKey links = measured)
  ∧ ((∀ l, l ∈ links → rectTop l = 0%Z) → sortKey links = hinted).
Proof.
  rewrite getSortedLinks_sortKey.
  destruct (arraySort_stableSortOf (sortKey links) links) as [Hp Hl Hs Hst].
  repeat (split; [assumption|]). unfold sortKey. split.
  - intros (l & Hl' & Hne).
    destruct (allZeroTop (List.map measured links)) eqn:Hz; [|reflexivity].
    destruct Hne. by apply (proj1 (allZeroTop_measured links) Hz).
  - intros Hall. by rewrite (proj2 (allZeroTop_measured links) Hall).
Qed.

Lemma ordered_links_stable_sort_of_used_positions_witness :
  getSortedLinks [lineRight; lineLeft] ≡ₚ [lineRight; lineLeft]
  ∧ sortKey [lineRight; lineLeft] = measured
  ∧ getSortedLinks [lineRight; lineLeft] = [lineLeft; lineRight].
Proof.
  destruct (ordered_links_stable_sort_of_used_positions [lineRight; lineLeft])
    as (Hp & _ & _ & _ & Hm & _).
  split; [exact Hp|]. split; [|reflexivity].
  apply Hm. exists lineRight. split; [by left|discriminate].
Defined.

(** C7 as it was stated fails when every measured top is 0: two links on
    the top edge, the first one further right and neither with hints, are
    returned in their input order, which is not ascending in the measured
    left coordinate. *)
Lemma links_on_top_edge_are_not_sorted_by_left :
  rectTop linkRight = rectTop linkLeft
  ∧ (rectLeft linkLeft < rectLeft linkRight)%Z
  ∧ getSortedLinks [linkRight; linkLeft] = [linkRight; linkLeft]
  ∧ ¬ StronglySorted (λ a b, topLeftLe (measured a) (measured b))
        (getSortedLinks [linkRight; linkLeft]).
Proof.
  split; [reflexivity|]. split; [reflexivity|]. split; [reflexivity|].
  intros Hs. change (getSortedLinks [linkRight; linkLeft])
    with [linkRight; linkLeft] in Hs.
  apply StronglySorted_inv in Hs as [_ Hall].
  apply Forall_cons in Hall as [Hle _].
  unfold topLeftLe in Hle. simpl in Hle. lia.
Qed.

(** C8, as amended. When the measured top of every link is 0 (the sign of
    an environment without layout; also when there is no link),
    [getSortedLinks] is the stable sort by the [data-top] and [data-left]
    hints, a hint being the number that [parseInt] reads (an integer
    beyond 2^53 is the double nearest to it) and a missing or unreadable
    hint counting as 0; when some measured top is not 0, also when all
    tops are the same, it is the stable sort by the measured positions. *)
Theorem ordered_links_fall_back_on_zero_tops (links : list Link) :
  ((∀ l, l ∈ links → rectTop l = 0%Z) →
   stableSortOf hinted links (getSortedLinks links))
  ∧ ((∃ l, l ∈ links ∧ rectTop l ≠ 0%Z) →
     stableSortOf measured links (getSortedLinks links))
  ∧ (∀ l, dataTop l = None → top (hinted l) = 0%Z)
  ∧ (∀ l v, dataTop l = Some v → parseInt10 v = None → top (hinted l) = 0%Z)
  ∧ (∀ l v z, dataTop l = Some v → parseInt10 v = Some z →
       top (hinted l) = z)
  ∧ (∀ z, (Z.abs z < 2 ^ 53)%Z → toNumber z = z).
Proof.
  rewrite getSortedLinks_sortKey. unfold sortKey.
  split; [|split; [|split; [|split; [|split]]]]; cycle 4.
  { intros l v z Hl Hv. unfold hinted, hint. cbn [top]. rewrite Hl.
    destruct v as [|c v]; [discriminate Hv|]. cbn [truthy String.eqb negb].
    by rewrite Hv. }
  { intros z Hz. unfold toNumber.
    by destruct (Z.ltb_spec (Z.abs z) (2 ^ 53)); [|lia]. }
  - intros Hall. rewrite (proj2 (allZeroTop_measured links) Hall).
    apply arraySort_stableSortOf.
  - intros (l & Hl & Hne).
    destruct (allZeroTop (List.map measured links)) eqn:Hz.
    + destruct Hne. by apply (proj1 (allZeroTop_measured links) Hz).
    + apply arraySort_stableSortOf.
  - intros l Hl. unfold hinted, hint. cbn [top]. by rewrite Hl.
  - intros l v Hl Hv. unfold hinted, hint. cbn [top]. rewrite Hl.
    destruct (truthy v); [by rewrite Hv|reflexivity].
Qed.

Lemma ordered_links_fall_back_on_zero_tops_witness :
  stableSortOf hinted [hintedLow; hintedHigh]
    (getSortedLinks [hintedLow; hintedHigh])
  ∧ getSortedLinks [hintedLow; hintedHigh] = [hintedHigh; hintedLow]
  ∧ stableSortOf measured [lineRight; lineLeft]
      (getSortedLinks [lineRight; lineLeft]).
Proof.
  destruct (ordered_links_fall_back_on_zero_tops [hintedLow; hintedHigh])
    as (Hzero & _).
  destruct (ordered_links_fall_back_on_zero_tops [lineRight; lineLeft])
    as (_ & Hsome & _).
  split; [|split; [reflexivity|]].
  - apply Hzero. intros l Hl.
    apply elem_of_cons in Hl as [->|Hl]; [reflexivity|].
    apply elem_of_cons in Hl as [->|Hl]; [reflexivity|].
    by apply elem_of_nil in Hl.
  - apply Hsome. exists lineRight. split; [by left|discriminate].
Defined.

(** Hints are compared as numbers: 2^53 + 1 and 2^53 are the same number,
    and the two links keep their input order. *)
Example hints_are_compared_as_numbers :
  top (hinted hintedBeyond) = top (hinted hintedAtLimit)
  ∧ getSortedLinks [hintedBeyond; hintedAtLimit] = [hintedBeyond; hintedAtLimit].
Proof. split; vm_compute; reflexivity. Qed.

(** C8 as it was stated fails when the identical top is not 0: two links
    on one line at top 100 are sorted by their measured left coordinates,
    against the order of their hints. *)
Lemma identical_nonzero_tops_use_measured_positions :
  (∀ a b, a ∈ [lineRight; lineLeft] → b ∈ [lineRight; lineLeft] →
     rectTop a = rectTop b)
  ∧ getSortedLinks [lineRight; lineLeft] = [lineLeft; lineRight]
  ∧ List.map el (arraySort compareTopLeft (List.map hinted [lineRight; lineLeft]))
    = [lineRight; lineLeft]
  ∧ ¬ StronglySorted (λ a b, topLeftLe (hinted a) (hinted b))
        (getSortedLinks [lineRight; lineLeft]).
Proof.
  split; [|split; [reflexivity|split; [reflexivity|]]].
  - intros a b Ha Hb.
    apply elem_of_cons in Ha as [->|Ha]; [|apply elem_of_cons in Ha as [->|Ha];
      [|by apply elem_of_nil in Ha]];
    (apply elem_of_cons in Hb as [->|Hb]; [|apply elem_of_cons in Hb as [->|Hb];
      [|by apply elem_of_nil in Hb]]); reflexivity.
  - intros Hs. change (getSortedLinks [lineRight; lineLeft])
      with [lineLeft; lineRight] in Hs.
    apply StronglySorted_inv in Hs as [_ Hall].
    apply Forall_cons in Hall as [Hle _].
    destruct Hle as [Hlt|[_ Hle]]; [vm_compute in Hlt; discriminate Hlt|].
    vm_compute in Hle. by apply Hle.
Qed.

(* ================================================================== *)
(** * Further theorems *)

(** ** More on the scraper *)

Section ScraperMore.
Context `{Platform}.


End ScraperMore.

(** *** Class tokens *)









Lemma inList_In x l : inList x l = true ↔ In x l.
Proof.
  unfold inList. rewrite existsb_exists. split.
  - intros (y & Hy & Heq). apply String.eqb_eq in Heq. by subst.
  - intros Hx. exists x. split; [exact Hx|apply String.eqb_refl].
Qed.



(** *** The attributes of a cleaned element *)

Section CleanedAttributes.
Context `{Platform}.



End CleanedAttributes.









(** *** The extraction root *)






(** In quirks mode a class selector matches without regard to case: the
    [div] of class [Content] is the root of a document without doctype,
    and with a doctype the [article] after it is. *)
Example quirks_mode_matches_classes_without_case :
  selectSource (capitalDocument true) = Some capitalDiv
  ∧ selectSource (capitalDocument false) = Some laterArticle.
Proof. split; vm_compute; reflexivity. Qed.

(** A page of frames has no [body] element: its [frameset] is
    [document.body], and the frames are what is published. *)
Example frameset_page_is_published :
  body framesetDocument = Some frameset
  ∧ selectSource framesetDocument = Some frameset
  ∧ @scrape refPlatform framesetDocument "https://example.com/"
    = Some (children frameset).
Proof. repeat split; vm_compute; reflexivity. Qed.

(** *** What cleaning keeps *)

Section Kept.
Context `{Platform}.


End Kept.



(** ** More on navigation *)

Lemma run_invariant `{Platform} (I : State → Prop) :
  I initialState → (∀ s e, I s → I (step s e)) →
  ∀ es, I (run initialState es).
Proof.
  intros H0 Hstep es. induction es as [|e es IH] using rev_ind; [exact H0|].
  rewrite run_snoc. by apply Hstep.
Qed.

(** Unfolds the handlers of an event on a state given by its fields and
    splits on every test. *)
Ltac step_cases :=
  unfold step, keydownBackspace, handleUrlSubmit, handleMenuAction, loadPage,
    loadPage_resume, loadPage_finally, toggleUrlBar, closeMenu, openMenu,
    closeAbout, openAbout, overlayOpen, clearLinkSelection,
    setupLinkInteractions, showError, showNotification, leavesPage, popHistory;
  repeat
    (progress
       (cbn -[unwrapRedirector scrape trim includes startsWith searchUrl
              truthy String.eqb Z.eqb Z.leb Z.ltb last removelast pushHistory
              unsupportedContentType] in *;
        split_tests;
        repeat match goal with
               | p : (_ * _)%type |- _ => destruct p
               end)).

Lemma loadPage_busy `{Platform} url isBack s :
  isLoading s = true → loadPage url isBack s = s.
Proof. intros Hl. unfold loadPage. by rewrite Hl. Qed.

(** As [step_cases], with [loadPage] and [loadPage_resume] left folded. *)
Ltac step_cases_to_loadPage :=
  unfold step, keydownBackspace, handleUrlSubmit, handleMenuAction,
    toggleUrlBar, closeMenu, openMenu, closeAbout, openAbout, overlayOpen,
    clearLinkSelection, showError, popHistory;
  repeat
    (progress
       (cbn -[loadPage loadPage_resume unwrapRedirector scrape trim includes
              startsWith searchUrl truthy String.eqb Z.eqb Z.leb Z.ltb last
              removelast pushHistory unsupportedContentType] in *;
        split_tests;
        repeat match goal with
               | p : (_ * _)%type |- _ => destruct p
               end)).

(** What [loadPage] and a settling request leave alone. *)
Lemma loadPage_frame `{Platform} url isBack s :
  isMenuOpen (loadPage url isBack s) = isMenuOpen s
  ∧ isUrlBarOpen (loadPage url isBack s) = isUrlBarOpen s
  ∧ isAboutOpen (loadPage url isBack s) = isAboutOpen s
  ∧ closeRequested (loadPage url isBack s) = closeRequested s
  ∧ selectedLinkIndex (loadPage url isBack s) = selectedLinkIndex s
  ∧ urlInput (loadPage url isBack s) = urlInput s
  ∧ notifications (loadPage url isBack s) = notifications s.
Proof. unfold loadPage. split_tests; by cbn. Qed.

Lemma loadPage_resume_frame `{Platform} o s :
  isMenuOpen (loadPage_resume o s) = isMenuOpen s
  ∧ isUrlBarOpen (loadPage_resume o s) = isUrlBarOpen s
  ∧ isAboutOpen (loadPage_resume o s) = isAboutOpen s
  ∧ closeRequested (loadPage_resume o s) = closeRequested s.
Proof. unfold loadPage_resume. destruct o; split_tests; by cbn. Qed.



(** Rewrites the fields of a state that [loadPage] or a settling request
    left alone. *)
Ltac rewrite_frames :=
  repeat match goal with
         | |- context [loadPage ?u ?b ?s] =>
             let H1 := fresh in let H2 := fresh in let H3 := fresh in
             let H4 := fresh in let H5 := fresh in let H6 := fresh in
             let H7 := fresh in
             destruct (loadPage_frame u b s)
               as (H1 & H2 & H3 & H4 & H5 & H6 & H7);
             cbn in H1, H2, H3, H4, H5, H6, H7;
             progress (rewrite ?H1, ?H2, ?H3, ?H4, ?H5, ?H6, ?H7);
             clear H1 H2 H3 H4 H5 H6 H7
         | |- context [loadPage_resume ?o ?s] =>
             let H1 := fresh in let H2 := fresh in let H3 := fresh in
             let H4 := fresh in
             destruct (loadPage_resume_frame o s) as (H1 & H2 & H3 & H4);
             cbn in H1, H2, H3, H4;
             progress (rewrite ?H1, ?H2, ?H3, ?H4);
             clear H1 H2 H3 H4
         end.


(** X7. In every state of a run at most one of the menu, the URL bar and
    the About screen is open. *)
Theorem overlays_are_mutually_exclusive `{Platform} (es : list Event) :
  (isMenuOpen (run initialState es) && isUrlBarOpen (run initialState es)
   || isMenuOpen (run initialState es) && isAboutOpen (run initialState es)
   || isUrlBarOpen (run initialState es) && isAboutOpen (run initialState es))
  = false.
Proof.
  change (oneOverlay (run initialState es)).
  apply run_invariant; [reflexivity|]. clear es.
  intros [m u a c h l sel r inp lh nots cl inf] e. unfold oneOverlay.
  cbn [isMenuOpen isUrlBarOpen isAboutOpen]. intros Hinv.
  destruct m, u, a; try discriminate Hinv; clear Hinv;
    destruct e as [v| | |item lh'| | |picked|lh'|o];
    try destruct item as [[| |bu| |]|]; try destruct lh';
    step_cases_to_loadPage; rewrite_frames; reflexivity.
Qed.

Lemma Forall_removelast {A} (P : A → Prop) (l : list A) :
  Forall P l → Forall P (removelast l).
Proof.
  induction 1 as [|x l Hx Hl IH]; [constructor|].
  destruct l as [|y l]; [constructor|]. by constructor.
Qed.

Lemma Forall_pushHistory (P : string → Prop) c h :
  P c → Forall P h → Forall P (pushHistory c h).
Proof.
  intros Hc Hh. unfold pushHistory.
  assert (Hall : Forall P (h ++ [c])) by (apply Forall_app; by repeat constructor).
  destruct (Nat.ltb _ _); [|exact Hall].
  destruct (h ++ [c])%list as [|x l]; [constructor|].
  by apply Forall_cons in Hall as [_ Hall].
Qed.

(** X8. In every state of a run no entry of the history stack is the
    empty string, so that what Backspace pops is never refused by
    [loadPage] as an invalid URL. *)
Theorem history_entries_are_never_empty `{Platform} (es : list Event) :
  Forall (λ u, u ≠ EmptyString) (historyStack (run initialState es))
  ∧ ∀ top rest,
      popHistory (historyStack (run initialState es)) = Some (top, rest) →
      truthy top = true.
Proof.
  assert (Hinv : Forall (λ u, u ≠ EmptyString)
                   (historyStack (run initialState es))).
  { apply (run_invariant (λ s, Forall (λ u, u ≠ EmptyString) (historyStack s)));
      [constructor|]. clear es. intros s e Hs.
    destruct (step_historyChange s e) as [| |url Hc _].
    - exact Hs.
    - by apply Forall_removelast.
    - by apply Forall_pushHistory. }
  split; [exact Hinv|]. intros top rest Hp.
  apply popHistory_Some in Hp as [Hl _]. apply truthy_true.
  rewrite Forall_forall in Hinv. apply Hinv.
  apply last_Some in Hl as [l' ->]. apply elem_of_app. right. by left.
Qed.

Lemma history_entries_are_never_empty_witness :
  popHistory (historyStack (@run refPlatform initialState busyOnB))
  = Some ("https://a.example/", [])
  ∧ truthy "https://a.example/" = true.
Proof.
  assert (Hp : popHistory (historyStack (@run refPlatform initialState busyOnB))
               = Some ("https://a.example/", []))
    by (vm_compute; reflexivity).
  split; [exact Hp|].
  exact (proj2 (@history_entries_are_never_empty refPlatform busyOnB) _ _ Hp).
Defined.


(** X10. While a request is in flight no event other than its settling
    starts another request or changes the current location: the request
    in flight stays the same one, the busy flag stays set, and the
    history stack gets no new entry; only Backspace still shortens it. *)
Theorem load_requests_are_dropped_while_busy `{Platform} (s : State)
    (e : Event) :
  isLoading s = true → (∀ o, e ≠ EvSettled o) →
  inFlight (step s e) = inFlight s
  ∧ isLoading (step s e) = true
  ∧ currUrl (step s e) = currUrl s
  ∧ (historyStack (step s e) = historyStack s
     ∨ (e = EvBackspace
        ∧ historyStack (step s e) = removelast (historyStack s))).
Proof.
  intros Hl He.
  destruct s as [m u a c h l sel r inp lh nots cl inf]. cbn in Hl. subst l.
  destruct e as [v| | |item lh'| | |picked|lh'|o];
    [| | | | | | | |by destruct (He o)];
    try destruct item as [[| |bu| |]|]; try destruct lh';
    step_cases_to_loadPage;
    rewrite ?loadPage_busy by reflexivity;
    repeat match goal with
           | Hp : match last ?h with _ => _ end = _ |- _ =>
               destruct (last h); simplify_eq
           end;
    cbn; repeat split; auto.
Qed.

Lemma load_requests_are_dropped_while_busy_witness :
  isLoading (@run refPlatform initialState busyOnB) = true
  ∧ inFlight (@step refPlatform (@run refPlatform initialState busyOnB)
                (EvClick "https://c.example/"))
    = inFlight (@run refPlatform initialState busyOnB)
  ∧ inFlight (@run refPlatform initialState busyOnB)
    = Some "https://b.example/".
Proof.
  assert (Hl : isLoading (@run refPlatform initialState busyOnB) = true)
    by (vm_compute; reflexivity).
  split; [exact Hl|]. split; [|vm_compute; reflexivity].
  apply (@load_requests_are_dropped_while_busy refPlatform _
           (EvClick "https://c.example/") Hl).
  intros o. discriminate.
Defined.

(** X11. The only event that asks for the application to be closed is
    Backspace with no overlay open and an empty history stack. *)
Theorem close_is_requested_only_by_backspace_on_empty_history `{Platform}
    (s : State) (e : Event) :
  closeRequested (step s e) = true →
  closeRequested s = true
  ∨ (e = EvBackspace ∧ overlayOpen s = false ∧ historyStack s = []).
Proof.
  destruct s as [m u a c h l sel r inp lh nots cl inf].
  destruct e as [v| | |item lh'| | |picked|lh'|o];
    try destruct item as [[| |bu| |]|]; try destruct lh';
    step_cases_to_loadPage; rewrite_frames; auto.
  all: intros _; right; split; [reflexivity|]; split; [reflexivity|];
    by destruct h using rev_ind; [|rewrite last_snoc in *].
Qed.

Lemma close_is_requested_only_by_backspace_on_empty_history_witness :
  closeRequested (@step refPlatform initialState EvBackspace) = true
  ∧ (closeRequested initialState = true
     ∨ (EvBackspace = EvBackspace ∧ overlayOpen initialState = false
        ∧ historyStack initialState = [])).
Proof.
  assert (Hc : closeRequested (@step refPlatform initialState EvBackspace)
               = true) by reflexivity.
  split; [exact Hc|].
  exact (@close_is_requested_only_by_backspace_on_empty_history refPlatform
           initialState EvBackspace Hc).
Defined.



Lemma trimStart_whiteSpace w rest :
  In w whiteSpaceCodePoints → trimStart (w ++ rest) = trimStart rest.
Proof.
  unfold whiteSpaceCodePoints. cbn [List.map bytes fold_right].
  intros Hw. repeat (destruct Hw as [<-|Hw]; [reflexivity|]). destruct Hw.
Qed.

Lemma trimStart_joined pieces :
  Forall (λ w, In w whiteSpaceCodePoints) pieces →
  trimStart (joined pieces) = EmptyString.
Proof.
  induction 1 as [|w pieces Hw _ IH]; [reflexivity|].
  cbn [joined fold_right]. fold (joined pieces).
  by rewrite (trimStart_whiteSpace w _ Hw).
Qed.

(** Each of the white space code points is removed at both ends, and
    the zero width space U+200B, which is none of them, is kept. *)
Lemma trim_removes_each_white_space :
  Forall (λ w, trim (w ++ "x" ++ w) = "x") whiteSpaceCodePoints
  ∧ trim (bytes [226; 128; 139] ++ "x") = bytes [226; 128; 139] ++ "x".
Proof.
  split; [|vm_compute; reflexivity].
  unfold whiteSpaceCodePoints. cbn [List.map].
  repeat (constructor; [vm_compute; reflexivity|]). constructor.
Qed.

Lemma whiteSpace_pieces pieces :
  forallb (λ w, inList w whiteSpaceCodePoints) pieces = true →
  Forall (λ w, In w whiteSpaceCodePoints) pieces.
Proof.
  rewrite forallb_forall, List.Forall_forall. intros Hall w Hw.
  by apply inList_In, Hall.
Qed.

(** X13. A URL-bar text made of white space only, of any of the white
    space code points that [trim] removes (or empty), is ignored: Enter
    changes nothing, the URL bar stays open and no request is made. *)
Theorem blank_url_bar_input_is_ignored `{Platform} (s : State)
    (pieces : list string) :
  Forall (λ w, In w whiteSpaceCodePoints) pieces →
  urlInput s = joined pieces →
  handleUrlSubmit s = s.
Proof.
  intros Hws Hin. unfold handleUrlSubmit, trim.
  by rewrite Hin, (trimStart_joined _ Hws).
Qed.

Lemma blank_url_bar_input_is_ignored_witness :
  @handleUrlSubmit refPlatform (urlBarWith (joined blankPieces))
  = urlBarWith (joined blankPieces).
Proof.
  apply (@blank_url_bar_input_is_ignored refPlatform
           (urlBarWith (joined blankPieces)) blankPieces).
  - apply whiteSpace_pieces. vm_compute. reflexivity.
  - reflexivity.
Defined.

(** X14. Whatever is typed, Enter in the URL bar does one of three
    things: nothing, showing the InvalidUrl message, or closing the bar
    and handing [loadPage] a text that starts with the four letters
    [http] (the search address, the text with [https://] put before it,
    or the text itself when it starts with these letters, whatever
    follows them). *)
Theorem url_bar_requests_start_with_http `{Platform} (s : State) :
  handleUrlSubmit s = s
  ∨ handleUrlSubmit s = showError invalidUrlMessage s
  ∨ ∃ url, startsWith url "http" = true
           ∧ handleUrlSubmit s = loadPage url false (toggleUrlBar s).
Proof.
  unfold handleUrlSubmit.
  destruct (negb (truthy (trim (urlInput s)))); [by left|].
  destruct (_ || _).
  { right. right. eexists. split; [|reflexivity]. reflexivity. }
  destruct (startsWith (trim (urlInput s)) "http") eqn:Hs.
  - destruct (URL_parse _ None); [|by right; left].
    right. right. eexists. split; [|reflexivity]. exact Hs.
  - destruct (URL_parse _ None); [|by right; left].
    right. right. eexists. split; [|reflexivity]. reflexivity.
Qed.

(** ** Link selection, menu focus and preferences *)

Lemma wrapIndex_mod index n : (0 < n)%Z → wrapIndex index n = (index mod n)%Z.
Proof.
  intros Hn. unfold wrapIndex.
  pose proof (Z.quot_rem' index n) as Hq.
  assert (Hb : (- n < Z.rem index n < n)%Z).
  { pose proof (Z.rem_bound_abs index n ltac:(lia)). lia. }
  rewrite Z.rem_mod_nonneg by lia.
  replace (Z.rem index n + n)%Z with (index + (1 - index ÷ n) * n)%Z by lia.
  apply Z_mod_plus_full.
Qed.

Lemma at_index_Some {A} (arr : list A) i :
  (0 ≤ i < Z.of_nat (List.length arr))%Z → is_Some (at_index arr i).
Proof.
  intros Hi. unfold at_index. destruct (Z.ltb_spec i 0); [lia|].
  apply lookup_lt_is_Some. lia.
Qed.

Lemma getSortedLinks_length links :
  List.length (getSortedLinks links) = List.length links.
Proof.
  rewrite getSortedLinks_sortKey. apply Permutation_length, arraySort_perm.
Qed.

(** [selectLink] on a non-empty list selects the index modulo the number
    of links. *)
Lemma selectLink_selected links index s :
  links ≠ [] →
  selectLink links index s
  = set_selectedLinkIndex
      (index mod Z.of_nat (List.length links))%Z (clearLinkSelection s).
Proof.
  intros Hne. unfold selectLink. rewrite getSortedLinks_length.
  destruct links as [|l links]; [done|].
  cbn [List.length Nat.eqb].
  rewrite wrapIndex_mod by lia.
  destruct (at_index_Some (getSortedLinks (l :: links))
              (index mod Z.of_nat (S (List.length links)))%Z) as [x ->];
    [|reflexivity].
  rewrite getSortedLinks_length. cbn [List.length].
  apply Z.mod_pos_bound. lia.
Qed.

(** X15. [selectLink] is cyclic: on N > 0 links it selects the index
    modulo N, which lies between 0 and N - 1; so [selectLink(-1)] selects
    the last link, the same as [selectLink(N - 1)], and [selectLink(N)]
    the first; without links it changes nothing. *)
Theorem select_link_wraps_around (links : list Link) (index : Z) (s : State) :
  (links = [] → selectLink links index s = s)
  ∧ (links ≠ [] →
     selectedLinkIndex (selectLink links index s)
     = (index mod Z.of_nat (List.length links))%Z
     ∧ (0 ≤ selectedLinkIndex (selectLink links index s)
        < Z.of_nat (List.length links))%Z
     ∧ selectLink links (-1) s
       = selectLink links (Z.of_nat (List.length links) - 1) s
     ∧ selectLink links (index + Z.of_nat (List.length links)) s
       = selectLink links index s).
Proof.
  split; [by intros ->|]. intros Hne.
  assert (Hn : (0 < Z.of_nat (List.length links))%Z)
    by (destruct links; [done|cbn [List.length]; lia]).
  rewrite !(selectLink_selected links _ s Hne). cbn [selectedLinkIndex set_selectedLinkIndex].
  split; [reflexivity|]. split; [by apply Z.mod_pos_bound|].
  split; f_equal.
  - replace (-1)%Z with (Z.of_nat (List.length links) - 1
                         + (-1) * Z.of_nat (List.length links))%Z by lia.
    apply Z_mod_plus_full.
  - replace (index + Z.of_nat (List.length links))%Z
      with (index + 1 * Z.of_nat (List.length links))%Z by lia.
    apply Z_mod_plus_full.
Qed.

Lemma select_link_wraps_around_witness :
  selectedLinkIndex (selectLink threeLinks (-1) initialState) = 2%Z
  ∧ selectLink threeLinks (-1) initialState
    = selectLink threeLinks (Z.of_nat (List.length threeLinks) - 1)
        initialState.
Proof.
  destruct (select_link_wraps_around threeLinks (-1) initialState)
    as [_ Hw].
  destruct (Hw ltac:(discriminate)) as (Hsel & _ & Hlast & _).
  split; [exact Hsel|exact Hlast].
Defined.

Lemma keydownArrow_selected down links nearest s :
  isMenuOpen s = false → isUrlBarOpen s = false → isAboutOpen s = false →
  links ≠ [] →
  ∃ index,
    keydownArrow down links nearest s
    = set_selectedLinkIndex
        (index mod Z.of_nat (List.length links))%Z (clearLinkSelection s)
    ∧ (selectedLinkIndex s ≠ (-1)%Z →
       index = if down then (selectedLinkIndex s + 1)%Z
               else (selectedLinkIndex s - 1)%Z).
Proof.
  intros Hm Hu Ha Hne. unfold keydownArrow. rewrite Ha, Hm, Hu.
  cbn [negb andb]. rewrite getSortedLinks_length.
  destruct (List.length links) eqn:Hlen; [by destruct links|].
  cbn [Nat.eqb]. rewrite <- Hlen. clear Hlen.
  destruct (Z.eqb_spec (selectedLinkIndex s) (-1)) as [Hs|Hs]; cbn [negb].
  - destruct (nearest =? -1)%Z; eexists;
      (split; [by apply selectLink_selected|done]).
  - eexists. split; [by apply selectLink_selected|done].
Qed.

Lemma keydownArrow_flags down links nearest s :
  isMenuOpen (keydownArrow down links nearest s) = isMenuOpen s
  ∧ isUrlBarOpen (keydownArrow down links nearest s) = isUrlBarOpen s
  ∧ isAboutOpen (keydownArrow down links nearest s) = isAboutOpen s.
Proof.
  unfold keydownArrow, selectLink, clearLinkSelection.
  split_tests; by cbn.
Qed.

(** After [k] presses of ArrowDown from a selected link the selection has
    moved [k] places round the links. *)
Lemma keydownArrow_down_iter links nearest s k :
  isMenuOpen s = false → isUrlBarOpen s = false → isAboutOpen s = false →
  links ≠ [] →
  (0 ≤ selectedLinkIndex s < Z.of_nat (List.length links))%Z →
  selectedLinkIndex (Nat.iter k (keydownArrow true links nearest) s)
  = ((selectedLinkIndex s + Z.of_nat k) mod Z.of_nat (List.length links))%Z
  ∧ isMenuOpen (Nat.iter k (keydownArrow true links nearest) s) = false
  ∧ isUrlBarOpen (Nat.iter k (keydownArrow true links nearest) s) = false
  ∧ isAboutOpen (Nat.iter k (keydownArrow true links nearest) s) = false.
Proof.
  intros Hm Hu Ha Hne Hsel. induction k as [|k IH].
  - cbn [Nat.iter]. rewrite Z.add_0_r, Z.mod_small by lia. done.
  - rewrite Nat.iter_succ. destruct IH as (IHs & IHm & IHu & IHa).
    set (s1 := Nat.iter k (keydownArrow true links nearest) s) in *.
    destruct (keydownArrow_flags true links nearest s1) as (Hf1 & Hf2 & Hf3).
    rewrite Hf1, Hf2, Hf3. split; [|done].
    destruct (keydownArrow_selected true links nearest s1 IHm IHu IHa Hne)
      as (index & -> & Hi).
    cbn [selectedLinkIndex set_selectedLinkIndex].
    assert (Hn : (0 < Z.of_nat (List.length links))%Z)
      by (destruct links; [done|cbn [List.length]; lia]).
    pose proof (Z.mod_pos_bound (selectedLinkIndex s + Z.of_nat k)
                  (Z.of_nat (List.length links)) Hn) as Hb.
    rewrite Hi by (rewrite IHs; lia). rewrite IHs.
    rewrite Zplus_mod_idemp_l. f_equal. lia.
Qed.

(** X16. In the reader, with links on the page, an arrow key always
    leaves a link selected whose index is within the links; from a
    selected link ArrowDown followed by ArrowUp comes back to it, and as
    many ArrowDown presses as there are links come back to it too.
    Without links the keys change nothing. *)
Theorem arrow_keys_cycle_through_links (links : list Link) (nearest : Z)
    (s : State) :
  isMenuOpen s = false → isUrlBarOpen s = false → isAboutOpen s = false →
  (links = [] → ∀ down, keydownArrow down links nearest s = s)
  ∧ (links ≠ [] →
     (∀ down,
        (0 ≤ selectedLinkIndex (keydownArrow down links nearest s)
         < Z.of_nat (List.length links))%Z)
     ∧ ((0 ≤ selectedLinkIndex s < Z.of_nat (List.length links))%Z →
        selectedLinkIndex
          (keydownArrow false links nearest
             (keydownArrow true links nearest s))
        = selectedLinkIndex s
        ∧ selectedLinkIndex
            (Nat.iter (List.length links) (keydownArrow true links nearest) s)
          = selectedLinkIndex s)).
Proof.
  intros Hm Hu Ha. split.
  { intros -> down. unfold keydownArrow. rewrite Ha, Hm, Hu. reflexivity. }
  intros Hne.
  assert (Hn : (0 < Z.of_nat (List.length links))%Z)
    by (destruct links; [done|cbn [List.length]; lia]).
  split.
  - intros down.
    destruct (keydownArrow_selected down links nearest s Hm Hu Ha Hne)
      as (index & -> & _).
    cbn [selectedLinkIndex set_selectedLinkIndex]. by apply Z.mod_pos_bound.
  - intros Hsel. split.
    + destruct (keydownArrow_selected true links nearest s Hm Hu Ha Hne)
        as (i1 & -> & Hi1).
      set (s1 := set_selectedLinkIndex _ _).
      destruct (keydownArrow_selected false links nearest s1 Hm Hu Ha Hne)
        as (i2 & -> & Hi2).
      subst s1. cbn [selectedLinkIndex set_selectedLinkIndex] in *.
      pose proof (Z.mod_pos_bound i1 (Z.of_nat (List.length links)) Hn) as Hb.
      rewrite Hi2 by lia. rewrite Hi1 by lia.
      rewrite Zminus_mod_idemp_l.
      replace (selectedLinkIndex s + 1 - 1)%Z with (selectedLinkIndex s) by lia.
      apply Z.mod_small. lia.
    + destruct (keydownArrow_down_iter links nearest s (List.length links)
                  Hm Hu Ha Hne Hsel) as [-> _].
      replace (selectedLinkIndex s + Z.of_nat (List.length links))%Z
        with (selectedLinkIndex s + 1 * Z.of_nat (List.length links))%Z by lia.
      rewrite Z_mod_plus_full. apply Z.mod_small. lia.
Qed.

Lemma arrow_keys_cycle_through_links_witness :
  selectedLinkIndex (keydownArrow true threeLinks 1 initialState) = 1%Z
  ∧ selectedLinkIndex
      (Nat.iter (List.length threeLinks) (keydownArrow true threeLinks 1)
         (keydownArrow true threeLinks 1 initialState))
    = selectedLinkIndex (keydownArrow true threeLinks 1 initialState).
Proof.
  split; [reflexivity|].
  destruct (arrow_keys_cycle_through_links threeLinks 1
              (keydownArrow true threeLinks 1 initialState)
              eq_refl eq_refl eq_refl) as [_ Hc].
  destruct (Hc ltac:(discriminate)) as [_ Hround].
  destruct (Hround ltac:(vm_compute; split; [discriminate|reflexivity]))
    as [_ Hn].
  exact Hn.
Defined.

(** X17. In the menu, with N > 0 items and one of them focused, an arrow
    key focuses an item of the menu again, ArrowDown and ArrowUp undo each
    other, ArrowDown on the last item goes to the first and ArrowUp on
    the first to the last. *)
Theorem menu_arrows_cycle_through_items (n i : Z) :
  (0 < n)%Z → (0 ≤ i < n)%Z →
  (∀ down, (0 ≤ menuArrowIndex down n i < n)%Z)
  ∧ menuArrowIndex false n (menuArrowIndex true n i) = i
  ∧ menuArrowIndex true n (menuArrowIndex false n i) = i
  ∧ menuArrowIndex true n (n - 1) = 0%Z
  ∧ menuArrowIndex false n 0 = (n - 1)%Z.
Proof.
  intros Hn Hi.
  assert (Hdown : ∀ j, (0 ≤ j < n)%Z →
            menuArrowIndex true n j = ((j + 1) mod n)%Z).
  { intros j Hj. unfold menuArrowIndex.
    destruct (Z.eqb_spec j (-1)); [lia|]. apply Z.rem_mod_nonneg; lia. }
  assert (Hup : ∀ j, (0 ≤ j < n)%Z →
            menuArrowIndex false n j = ((j - 1) mod n)%Z).
  { intros j Hj. unfold menuArrowIndex.
    destruct (Z.eqb_spec j (-1)); [lia|]. rewrite Z.rem_mod_nonneg by lia.
    replace (j - 1 + n)%Z with (j - 1 + 1 * n)%Z by lia.
    apply Z_mod_plus_full. }
  assert (Hb : ∀ k, (0 ≤ k mod n < n)%Z) by (intros k; by apply Z.mod_pos_bound).
  split; [intros []; rewrite ?Hdown, ?Hup by lia; apply Hb|].
  rewrite (Hdown i Hi), (Hup i Hi), (Hup _ (Hb _)), (Hdown _ (Hb _)).
  rewrite Zminus_mod_idemp_l, Zplus_mod_idemp_l.
  replace (i + 1 - 1)%Z with i by lia. replace (i - 1 + 1)%Z with i by lia.
  rewrite Z.mod_small by lia. split; [done|]. split; [done|].
  rewrite Hdown, Hup by lia.
  replace (n - 1 + 1)%Z with (0 + 1 * n)%Z by lia.
  rewrite Z_mod_plus_full, Z.mod_0_l by lia. split; [done|].
  replace (0 - 1)%Z with (n - 1 + (-1) * n)%Z by lia.
  rewrite Z_mod_plus_full. apply Z.mod_small. lia.
Qed.

Lemma menu_arrows_cycle_through_items_witness :
  menuArrowIndex true 8 7 = 0%Z ∧ menuArrowIndex false 8 0 = 7%Z.
Proof.
  destruct (menu_arrows_cycle_through_items 8 7 ltac:(lia) ltac:(lia))
    as (_ & _ & _ & Hlast & Hfirst).
  split; [exact Hlast|exact Hfirst].
Defined.

Lemma indexOf_absent x arr : ¬ In x arr → indexOf x arr = (-1)%Z.
Proof.
  induction arr as [|y arr IH]; [done|]. simpl. intros Hx.
  destruct (String.eqb_spec y x) as [->|_]; [tauto|].
  rewrite IH by tauto. reflexivity.
Qed.

(** X18. The text size and the colour mode cycle through their five
    values: the value after a valid one is valid, five toggles come back
    to the value one started from, and from a value that is none of the
    five (a stored setting the program does not know) one toggle gives
    the first value of the list. *)
Theorem preference_toggles_cycle_in_five (current : string) :
  (In current sizes →
   In (cycleNext sizes current) sizes
   ∧ Nat.iter 5 (cycleNext sizes) current = current)
  ∧ (¬ In current sizes → cycleNext sizes current = "xsmall")
  ∧ (In current colors →
     In (cycleNext colors current) colors
     ∧ Nat.iter 5 (cycleNext colors) current = current)
  ∧ (¬ In current colors → cycleNext colors current = "light").
Proof.
  split; [|split; [|split]].
  - intros Hin. simpl in Hin.
    destruct Hin as [<-|[<-|[<-|[<-|[<-|[]]]]]];
      (split; [vm_compute; tauto|reflexivity]).
  - intros Hin. unfold cycleNext. by rewrite (indexOf_absent _ _ Hin).
  - intros Hin. simpl in Hin.
    destruct Hin as [<-|[<-|[<-|[<-|[<-|[]]]]]];
      (split; [vm_compute; tauto|reflexivity]).
  - intros Hin. unfold cycleNext. by rewrite (indexOf_absent _ _ Hin).
Qed.

Lemma preference_toggles_cycle_in_five_witness :
  cycleNext sizes "xlarge" = "xsmall"
  ∧ Nat.iter 5 (cycleNext sizes) "medium" = "medium"
  ∧ cycleNext colors "solarized" = "light".
Proof.
  destruct (preference_toggles_cycle_in_five "medium") as (Hs & _).
  destruct (Hs ltac:(vm_compute; tauto)) as [_ Hfive].
  destruct (preference_toggles_cycle_in_five "solarized") as (_ & _ & _ & Hc).
  split; [reflexivity|]. split; [exact Hfive|].
  apply Hc. vm_compute. intuition discriminate.
Defined.

(** ** Storage and sessions *)

(** X19. What [setSafeLocalStorage] has written, [getSafeLocalStorage]
    reads back, except that a stored empty string reads as the default;
    other keys are not affected; and a write that fails (quota exceeded,
    access denied) reports [false] and leaves the storage as it was. *)
Theorem safe_storage_round_trip (key value other fallback : string)
    (st : Storage) :
  (fst (setSafeLocalStorage key value st) = true →
   getSafeLocalStorage key fallback (snd (setSafeLocalStorage key value st))
   = (if truthy value then value else fallback)
   ∧ (other ≠ key →
      getSafeLocalStorage other fallback
        (snd (setSafeLocalStorage key value st))
      = getSafeLocalStorage other fallback st))
  ∧ (fst (setSafeLocalStorage key value st) = false →
     snd (setSafeLocalStorage key value st) = st)
  ∧ (fst (setSafeLocalStorage key value st) = true ↔ status st = Available).
Proof.
  unfold setSafeLocalStorage, getSafeLocalStorage.
  destruct (status st) eqn:Hs; cbn [fst snd items status];
    (split; [|split; [|split]]); try done.
  intros _. split.
  - by rewrite lookup_insert_eq.
  - intros Hne. by rewrite lookup_insert_ne.
Qed.

Lemma safe_storage_round_trip_witness :
  getSafeLocalStorage "colorMode" "light"
    (snd (setSafeLocalStorage "colorMode" "dark" emptyStorage))
  = "dark"
  ∧ getSafeLocalStorage "lastVisitedUrl" "none"
      (snd (setSafeLocalStorage "lastVisitedUrl" "" emptyStorage))
    = "none".
Proof.
  destruct (safe_storage_round_trip "colorMode" "dark" "x" "light"
              emptyStorage) as [Hok _].
  destruct (safe_storage_round_trip "lastVisitedUrl" "" "x" "none"
              emptyStorage) as [Hempty _].
  split; [exact (proj1 (Hok eq_refl))|exact (proj1 (Hempty eq_refl))].
Defined.

(** X20. When the storage can be written, what a session leaves behind
    decides how the next one starts: left on the welcome screen (empty
    current location) the next session shows the welcome screen and
    requests nothing; left on a page, the next session requests that
    page as a forward navigation from an empty location, so with an
    empty history stack: the history itself is not kept. *)
Theorem next_session_resumes_last_location `{Platform} (s fresh : State)
    (st : Storage) :
  status st = Available →
  currUrl fresh = EmptyString → isLoading fresh = false →
  (currUrl s = EmptyString →
   onDOMContentLoaded (onBeforeUnload s st) fresh = showWelcome fresh)
  ∧ (currUrl s ≠ EmptyString →
     onDOMContentLoaded (onBeforeUnload s st) fresh
     = loadPage (currUrl s) false fresh
     ∧ historyStack (onDOMContentLoaded (onBeforeUnload s st) fresh)
       = historyStack fresh
     ∧ (xhr_open_ok (unwrapRedirector (currUrl s)) = true →
        inFlight (onDOMContentLoaded (onBeforeUnload s st) fresh)
        = Some (unwrapRedirector (currUrl s)))).
Proof.
  intros Hst Hc Hl.
  assert (Hget : getSafeLocalStorage "lastVisitedUrl" EmptyString
                   (onBeforeUnload s st)
                 = currUrl s).
  { unfold onBeforeUnload.
    destruct (safe_storage_round_trip "lastVisitedUrl" (currUrl s) "x"
                EmptyString st) as (Hok & _ & Hav).
    rewrite (proj1 (Hok (proj2 Hav Hst))).
    destruct (truthy (currUrl s)) eqn:Ht; [done|].
    by apply truthy_false in Ht. }
  unfold onDOMContentLoaded. rewrite Hget. split.
  - intros ->. reflexivity.
  - intros Hne. pose proof (proj2 (truthy_true _) Hne) as Ht. rewrite Ht.
    cbn [negb]. split; [reflexivity|]. split.
    + destruct (loadPage_history (currUrl s) false fresh)
        as [Heq|(_ & _ & Hcur & _)]; [exact Heq|]. by rewrite Hc in Hcur.
    + intros Hx. by rewrite (loadPage_inFlight _ false fresh Hl Hne Hx), Hc.
Qed.

Lemma next_session_resumes_last_location_witness :
  @onDOMContentLoaded refPlatform (onBeforeUnload atPageA emptyStorage)
    (freshState WelcomeView EmptyString true)
  = @loadPage refPlatform (currUrl atPageA) false
      (freshState WelcomeView EmptyString true)
  ∧ inFlight
      (@onDOMContentLoaded refPlatform (onBeforeUnload atPageA emptyStorage)
         (freshState WelcomeView EmptyString true))
    = Some (@unwrapRedirector refPlatform (currUrl atPageA)).
Proof.
  destruct (@next_session_resumes_last_location refPlatform atPageA
              (freshState WelcomeView EmptyString true) emptyStorage
              eq_refl eq_refl eq_refl) as [_ Hpage].
  destruct (Hpage ltac:(vm_compute; discriminate)) as (Heq & _ & Hin).
  split; [exact Heq|exact (Hin eq_refl)].
Defined.

(** ** Bookmarks *)

Section BookmarkFacts.
Context {C : Type} (ws : C → bool) (sp : C) (untitled : list C).

Lemma spacedOnce_weaken t : spacedOnce ws true t = true → spacedOnce ws false t = true.
Proof. destruct t as [|c t]; [done|]. simpl. by intros [_ ->]%andb_true_iff. Qed.

Lemma collapseRuns_spacedOnce t :
  spacedOnce ws true (collapseRuns ws sp true t) = true
  ∧ spacedOnce ws false (collapseRuns ws sp false t) = true.
Proof.
  induction t as [|c t [IHt IHf]]; [done|]. simpl.
  destruct (ws c) eqn:Hc; simpl.
  - split; [exact IHt|].
    destruct (ws sp); [exact IHt|by apply spacedOnce_weaken].
  - by rewrite Hc, IHf.
Qed.

Lemma spacedOnce_firstn n prev t :
  spacedOnce ws prev t = true → spacedOnce ws prev (List.firstn n t) = true.
Proof.
  revert prev t. induction n as [|n IH]; intros prev [|c t]; try done.
  simpl. intros [Hc Ht]%andb_true_iff. rewrite Hc. by apply IH.
Qed.

Lemma dropLeadingUnits_head t :
  match dropLeadingUnits ws t with
  | [] => True
  | c :: _ => ws c = false
  end.
Proof.
  induction t as [|c t IH]; [done|]. simpl.
  destruct (ws c) eqn:Hc; [exact IH|exact Hc].
Qed.

Lemma dropTrailingUnits_head c t :
  ws c = false → ∃ r, dropTrailingUnits ws (c :: t) = c :: r.
Proof.
  intros Hc. simpl. rewrite Hc.
  destruct (dropTrailingUnits ws t) as [|d r]; by eexists.
Qed.

Lemma collapseRuns_In inRun t c :
  In c (collapseRuns ws sp inRun t) → c = sp ∨ ws c = false.
Proof.
  revert inRun. induction t as [|d t IH]; intros inRun; [done|]. simpl.
  destruct (ws d) eqn:Hd.
  - destruct inRun; [apply IH|]. intros [<-|Hin]; [by left|by eapply IH].
  - intros [<-|Hin]; [by right|by eapply IH].
Qed.

Lemma In_firstn_full n (t : list C) c : In c (List.firstn n t) → In c t.
Proof.
  revert t. induction n as [|n IH]; intros [|d t]; try done.
  simpl. intros [?|?]; [by left|right; by apply IH].
Qed.

(** X21. The title stored with a bookmark is at most 20 units long, does
    not start with white space, has no two white space units in a row,
    and its only white space is the space character.  (It may end with a
    space, when the cut at 20 falls after one.) *)
Theorem bookmark_title_is_normalized (text : list C) :
  (List.length (normalizeTitle ws sp text) ≤ 20)%nat
  ∧ spacedOnce ws true (normalizeTitle ws sp text) = true
  ∧ (∀ c, In c (normalizeTitle ws sp text) → ws c = true → c = sp).
Proof.
  unfold normalizeTitle. split; [|split].
  - rewrite length_firstn. lia.
  - apply spacedOnce_firstn. unfold trimUnits.
    pose proof (dropLeadingUnits_head text) as Hh.
    destruct (dropLeadingUnits ws text) as [|c t]; [done|].
    destruct (dropTrailingUnits_head c t Hh) as [r ->].
    simpl. rewrite !Hh. simpl. rewrite !Hh. simpl.
    apply (collapseRuns_spacedOnce r).
  - intros c Hin Hc. apply In_firstn_full in Hin.
    apply collapseRuns_In in Hin as [?|?]; [done|congruence].
Qed.

(** X22. Adding a bookmark on the welcome screen (empty current
    location) is refused: the bookmarks stay as they are, the menu closes
    and a notice is shown.  On a page, with the stored bookmarks readable
    and the storage writable, the new bookmark is put last, after all the
    bookmarks there were, also when the page is already among them. *)
Theorem add_bookmark_appends_or_is_refused (heading : option (list C))
    (sh : Shell) :
  (currUrl (nav sh) = EmptyString →
   store (handleBookmarkAction ws sp untitled (ActAddBookmark heading) sh)
   = store sh
   ∧ notifications
       (nav (handleBookmarkAction ws sp untitled (ActAddBookmark heading) sh))
     = (notifications (nav sh)
        ++ [("Cannot bookmark the default homepage", true)])%list
   ∧ isMenuOpen
       (nav (handleBookmarkAction ws sp untitled (ActAddBookmark heading) sh))
     = false)
  ∧ (currUrl (nav sh) ≠ EmptyString →
     storeStatus (store sh) = Available →
     ∀ b, readBookmarks (store sh) = Some b →
       ∃ t, readBookmarks
              (store (handleBookmarkAction ws sp untitled
                        (ActAddBookmark heading) sh))
            = Some (b ++ [mkBookmark t (currUrl (nav sh))])%list
            ∧ (List.length t ≤ 20)%nat
            ∧ notifications
                (nav (handleBookmarkAction ws sp untitled
                        (ActAddBookmark heading) sh))
              = (notifications (nav sh) ++ [("Bookmark saved!", false)])%list).
Proof.
  split.
  - intros Hc. cbn [handleBookmarkAction]. rewrite Hc. by cbn.
  - intros Hc Hst b Hb. apply truthy_true in Hc.
    cbn [handleBookmarkAction]. rewrite Hc, Hb. cbn [negb].
    unfold writeBookmarks. rewrite Hst. eexists. split; [|split].
    + cbn. unfold readBookmarks. cbn. reflexivity.
    + apply bookmark_title_is_normalized.
    + reflexivity.
Qed.

(** X23. Deleting a bookmark takes two steps.  The first only shows the
    confirmation for the index: bookmarks and navigation state are as
    before.  Cancel then shows the list again, with every bookmark still
    there.  Confirm, with the storage writable and the index within the
    list, removes exactly the bookmark at the index, keeps the others in
    their order, and shows the list that is left. *)
Theorem delete_bookmark_asks_first (index : Z) (sh : Shell)
    (b : list Bookmark) :
  readBookmarks (store sh) = Some b →
  (store (handleBookmarkAction ws sp untitled (ActDeleteBookmark index) sh)
   = store sh
   ∧ nav (handleBookmarkAction ws sp untitled (ActDeleteBookmark index) sh)
     = nav sh
   ∧ screen (handleBookmarkAction ws sp untitled (ActDeleteBookmark index) sh)
     = ConfirmDelete index)
  ∧ (handleBookmarkAction ws sp untitled ActCancelDelete
       (handleBookmarkAction ws sp untitled (ActDeleteBookmark index) sh)
     = mkShell (nav sh) (store sh) (BookmarkList b))
  ∧ (storeStatus (store sh) = Available →
     (0 ≤ index < Z.of_nat (List.length b))%Z →
     readBookmarks
       (store (handleBookmarkAction ws sp untitled
                 (ActConfirmDeleteBookmark index)
                 (handleBookmarkAction ws sp untitled
                    (ActDeleteBookmark index) sh)))
     = Some (delete (Z.to_nat index) b)
     ∧ screen (handleBookmarkAction ws sp untitled
                 (ActConfirmDeleteBookmark index)
                 (handleBookmarkAction ws sp untitled
                    (ActDeleteBookmark index) sh))
       = BookmarkList (delete (Z.to_nat index) b)
     ∧ List.length (delete (Z.to_nat index) b) = (List.length b - 1)%nat
     ∧ (∀ j, (j < Z.to_nat index)%nat →
          delete (Z.to_nat index) b !! j = b !! j)
     ∧ (∀ j, (Z.to_nat index ≤ j)%nat →
          delete (Z.to_nat index) b !! j = b !! S j)).
Proof.
  intros Hb. cbn [handleBookmarkAction]. rewrite Hb.
  split; [done|]. split.
  { unfold showBookmarks. cbn [store nav]. by rewrite Hb. }
  intros Hst Hi. cbn [store nav]. rewrite Hb.
  unfold writeBookmarks. rewrite Hst. cbn [snd].
  assert (Hsp : spliceOne index b = delete (Z.to_nat index) b).
  { unfold spliceOne, spliceStart. destruct (Z.ltb_spec index 0); [lia|].
    by rewrite Z.min_l by lia. }
  rewrite Hsp. unfold showBookmarks, notify, readBookmarks.
  cbn [store nav slot storeStatus screen].
  split; [done|]. split; [done|]. split; [|split].
  - rewrite length_delete; [done|]. apply lookup_lt_is_Some. lia.
  - intros j Hj. by apply list_lookup_delete_lt.
  - intros j Hj. by apply list_lookup_delete_ge.
Qed.

(** X24. When the storage cannot be written (quota exceeded), confirming
    a deletion and confirming "clear all" leave every bookmark in place,
    and yet the notice shown says that the deletion was done: the result
    of the write is not looked at. *)
Theorem failed_delete_is_reported_as_done (index : Z) (sh : Shell)
    (b : list Bookmark) :
  storeStatus (store sh) = Full → slot (store sh) = Saved b →
  (store (handleBookmarkAction ws sp untitled (ActConfirmDeleteBookmark index) sh)
   = store sh
   ∧ screen (handleBookmarkAction ws sp untitled
               (ActConfirmDeleteBookmark index) sh)
     = BookmarkList b
   ∧ notifications
       (nav (handleBookmarkAction ws sp untitled
               (ActConfirmDeleteBookmark index) sh))
     = (notifications (nav sh) ++ [("Bookmark deleted", false)])%list)
  ∧ (store (handleBookmarkAction ws sp untitled ActReallyClearAll sh)
     = store sh
     ∧ screen (handleBookmarkAction ws sp untitled ActReallyClearAll sh)
       = BookmarkList b
     ∧ notifications
         (nav (handleBookmarkAction ws sp untitled ActReallyClearAll sh))
       = (notifications (nav sh) ++ [("All bookmarks deleted", false)])%list).
Proof.
  intros Hst Hsl.
  assert (Hb : readBookmarks (store sh) = Some b).
  { unfold readBookmarks. by rewrite Hst, Hsl. }
  cbn [handleBookmarkAction]. rewrite Hb.
  unfold writeBookmarks. rewrite Hst. cbn [snd].
  unfold showBookmarks, notify. cbn [store nav screen]. rewrite Hb.
  by cbn.
Qed.
End BookmarkFacts.

Lemma add_bookmark_appends_or_is_refused_witness :
  store (handleBookmarkAction isWhiteSpace " "%char (asciiTitle "Untitled Page")
           (ActAddBookmark (Some (asciiTitle "  A   long heading of the page ")))
           (mkShell menuOnWelcome (store bookmarkShell) MainMenu))
  = store bookmarkShell
  ∧ ∃ t, readBookmarks
           (store (handleBookmarkAction isWhiteSpace " "%char
                     (asciiTitle "Untitled Page")
                     (ActAddBookmark
                        (Some (asciiTitle "  A   long heading of the page ")))
                     bookmarkShell))
         = Some (sampleBookmarks ++ [mkBookmark t (currUrl (nav bookmarkShell))])%list
         ∧ (List.length t ≤ 20)%nat.
Proof.
  destruct (add_bookmark_appends_or_is_refused isWhiteSpace " "%char
              (asciiTitle "Untitled Page")
              (Some (asciiTitle "  A   long heading of the page "))
              (mkShell menuOnWelcome (store bookmarkShell) MainMenu))
    as [Hrefused _].
  destruct (add_bookmark_appends_or_is_refused isWhiteSpace " "%char
              (asciiTitle "Untitled Page")
              (Some (asciiTitle "  A   long heading of the page "))
              bookmarkShell) as [_ Hadded].
  split; [exact (proj1 (Hrefused eq_refl))|].
  destruct (Hadded ltac:(vm_compute; discriminate) eq_refl sampleBookmarks
              eq_refl) as (t & Hr & Hlen & _).
  exists t. by split.
Defined.

Lemma delete_bookmark_asks_first_witness :
  handleBookmarkAction isWhiteSpace " "%char (asciiTitle "Untitled Page")
    ActCancelDelete
    (handleBookmarkAction isWhiteSpace " "%char (asciiTitle "Untitled Page")
       (ActDeleteBookmark 2) bookmarkShell)
  = mkShell (nav bookmarkShell) (store bookmarkShell)
      (BookmarkList sampleBookmarks)
  ∧ readBookmarks
      (store (handleBookmarkAction isWhiteSpace " "%char
                (asciiTitle "Untitled Page") (ActConfirmDeleteBookmark 2)
                (handleBookmarkAction isWhiteSpace " "%char
                   (asciiTitle "Untitled Page") (ActDeleteBookmark 2)
                   bookmarkShell)))
    = Some (delete (Z.to_nat 2) sampleBookmarks).
Proof.
  destruct (delete_bookmark_asks_first isWhiteSpace " "%char
              (asciiTitle "Untitled Page") 2 bookmarkShell sampleBookmarks
              eq_refl) as (_ & Hcancel & Hconfirm).
  split; [exact Hcancel|].
  exact (proj1 (Hconfirm eq_refl ltac:(vm_compute; split; [discriminate|reflexivity]))).
Defined.

Lemma failed_delete_is_reported_as_done_witness :
  store (handleBookmarkAction isWhiteSpace " "%char (asciiTitle "Untitled Page")
           (ActConfirmDeleteBookmark 0)
           (mkShell (nav bookmarkShell)
              (mkBookmarkStore (Saved sampleBookmarks) Full)
              (ConfirmDelete 0)))
  = mkBookmarkStore (Saved sampleBookmarks) Full.
Proof.
  exact (proj1 (proj1 (failed_delete_is_reported_as_done isWhiteSpace " "%char
                         (asciiTitle "Untitled Page") 0
                         (mkShell (nav bookmarkShell)
                            (mkBookmarkStore (Saved sampleBookmarks) Full)
                            (ConfirmDelete 0))
                         sampleBookmarks eq_refl eq_refl))).
Defined.

Lemma bookmark_title_is_normalized_witness :
  (List.length
     (normalizeTitle isWhiteSpace " "%char
        (asciiTitle "  A   long heading of the page ")) ≤ 20)%nat
  ∧ spacedOnce isWhiteSpace true
      (normalizeTitle isWhiteSpace " "%char
         (asciiTitle "  A   long heading of the page ")) = true
  ∧ " "%char = " "%char.
Proof.
  destruct (bookmark_title_is_normalized isWhiteSpace " "%char
              (asciiTitle "  A   long heading of the page "))
    as (Hlen & Hsp & Hws).
  split; [exact Hlen|split; [exact Hsp|]].
  exact (Hws " "%char ltac:(vm_compute; tauto) eq_refl).
Defined.

(** ** The nearest link *)

Section NearestFacts.
Context {num : Type} (add sub : num → num → num) (half abs : num → num)
  (ltb : num → num → bool) (nonneg nonpos belowInfinity : num → bool).

(** [<] on the scores is a strict weak order. *)
Hypothesis ltb_irrefl : ∀ a, ltb a a = false.
Hypothesis ltb_trans :
  ∀ a b c, ltb a b = true → ltb b c = true → ltb a c = true.
Hypothesis ltb_incomparable :
  ∀ a b c, ltb a b = false → ltb b c = false → ltb a c = false.

Lemma ltb_asym a b : ltb a b = true → ltb b a = false.
Proof using ltb_irrefl ltb_trans.
  intros Hab. destruct (ltb b a) eqn:Hba; [|done].
  by rewrite <- (ltb_irrefl a), (ltb_trans a b a Hab Hba).
Qed.

Lemma scanLinks_from_some (scores : list num) :
  ∀ i bestIndex b,
    (scanLinks ltb belowInfinity scores i bestIndex (Some b) = bestIndex
     ∧ Forall (λ x, ltb x b = false) scores)
    ∨ (∃ k best,
         scanLinks ltb belowInfinity scores i bestIndex (Some b)
         = (i + Z.of_nat k)%Z
         ∧ scores !! k = Some best
         ∧ ltb best b = true
         ∧ Forall (λ x, ltb x best = false) scores
         ∧ ∀ j x, (j < k)%nat → scores !! j = Some x → ltb best x = true).
Proof using ltb_irrefl ltb_trans ltb_incomparable.
  induction scores as [|score rest IH]; intros i bestIndex b.
  { left. by split. }
  cbn [scanLinks betterThan]. destruct (ltb score b) eqn:Hsb.
  - right. destruct (IH (i + 1)%Z i score)
      as [[Hr Hall]|(k & best & Hr & Hk & Hlt & Hall & Hfirst)].
    + exists 0%nat, score. rewrite Hr. repeat split.
      * lia.
      * done.
      * constructor; [apply ltb_irrefl|done].
      * intros j x Hj. lia.
    + exists (S k), best. rewrite Hr. repeat split.
      * lia.
      * done.
      * by apply (ltb_trans best score b).
      * constructor; [by apply ltb_asym|done].
      * intros [|j] x Hj Hx; [by injection Hx as <-|].
        apply (Hfirst j x); [lia|done].
  - destruct (IH (i + 1)%Z bestIndex b)
      as [[Hr Hall]|(k & best & Hr & Hk & Hlt & Hall & Hfirst)].
    + left. split; [done|by constructor].
    + right. exists (S k), best. rewrite Hr. repeat split.
      * lia.
      * done.
      * done.
      * constructor; [|done].
        apply (ltb_incomparable score b best); [done|by apply ltb_asym].
      * intros [|j] x Hj Hx.
        -- injection Hx as <-.
           destruct (ltb best score) eqn:Hbs; [done|].
           by rewrite (ltb_incomparable best score b Hbs Hsb) in Hlt.
        -- apply (Hfirst j x); [lia|done].
Qed.

(** X25. With [<] a strict weak order on the scores and every score
    below [Infinity], the index returned for a non-empty list of links is
    that of a link in the list whose score no other link's score is below,
    and every link before it has a strictly greater score: the first link
    of least score. *)
Theorem nearest_link_is_first_of_least_score (direction : string)
    (readerTop clientHeight : num) (rects : list (@Box num)) :
  rects ≠ [] →
  (∀ r, In r rects →
     belowInfinity
       (linkScore add sub half abs nonneg nonpos direction
          (add readerTop (half clientHeight)) r) = true) →
  ∃ k r,
    findNearestLinkIndex add sub half abs ltb nonneg nonpos belowInfinity
      direction readerTop clientHeight rects = Z.of_nat k
    ∧ rects !! k = Some r
    ∧ (∀ r', In r' rects →
         ltb (linkScore add sub half abs nonneg nonpos direction
                (add readerTop (half clientHeight)) r')
             (linkScore add sub half abs nonneg nonpos direction
                (add readerTop (half clientHeight)) r) = false)
    ∧ (∀ j r', (j < k)%nat → rects !! j = Some r' →
         ltb (linkScore add sub half abs nonneg nonpos direction
                (add readerTop (half clientHeight)) r)
             (linkScore add sub half abs nonneg nonpos direction
                (add readerTop (half clientHeight)) r') = true).
Proof using ltb_irrefl ltb_trans ltb_incomparable.
  intros Hne Hfin.
  set (score := linkScore add sub half abs nonneg nonpos direction
                  (add readerTop (half clientHeight))) in *.
  destruct rects as [|r0 rest]; [done|].
  unfold findNearestLinkIndex. fold score.
  cbn [List.map scanLinks betterThan].
  rewrite (Hfin r0 (or_introl eq_refl)).
  destruct (scanLinks_from_some (List.map score rest) (0 + 1)%Z 0%Z (score r0))
    as [[Hr Hall]|(k & best & Hr & Hk & Hlt & Hall & Hfirst)].
  - exists 0%nat, r0. rewrite Hr. repeat split.
    + intros r' [<-|Hin]; [apply ltb_irrefl|].
      rewrite Forall_forall in Hall. apply Hall.
      apply list_elem_of_In, in_map, Hin.
    + intros j r' Hj. lia.
  - change (list_lookup k (List.map score rest)) with (fmap score rest !! k)
      in Hk.
    rewrite list_lookup_fmap in Hk.
    destruct (rest !! k) as [r|] eqn:Hrk; [|done].
    injection Hk as <-.
    exists (S k), r. rewrite Hr. repeat split.
    + lia.
    + done.
    + intros r' [<-|Hin]; [by apply ltb_asym|].
      rewrite Forall_forall in Hall. apply Hall.
      apply list_elem_of_In, in_map, Hin.
    + intros [|j] r' Hj Hr'; [by injection Hr' as <-|].
      apply (Hfirst j (score r')); [lia|].
      change (list_lookup j (List.map score rest)) with (fmap score rest !! j).
      rewrite list_lookup_fmap.
      change ((r0 :: rest) !! S j) with (rest !! j) in Hr'. by rewrite Hr'.
Qed.
End NearestFacts.

Lemma Qltb_lt (a b : QArith_base.Q) :
  Qltb a b = true ↔ QArith_base.Qlt a b.
Proof.
  unfold Qltb. rewrite negb_true_iff, <- not_true_iff_false.
  rewrite QArith_base.Qle_bool_iff. split.
  - apply QArith_base.Qnot_le_lt.
  - apply QArith_base.Qlt_not_le.
Qed.

Lemma Qltb_irrefl (a : QArith_base.Q) : Qltb a a = false.
Proof.
  apply not_true_iff_false. rewrite Qltb_lt. apply QArith_base.Qlt_irrefl.
Qed.

Lemma Qltb_trans (a b c : QArith_base.Q) :
  Qltb a b = true → Qltb b c = true → Qltb a c = true.
Proof. rewrite !Qltb_lt. apply QArith_base.Qlt_trans. Qed.

Lemma Qltb_incomparable (a b c : QArith_base.Q) :
  Qltb a b = false → Qltb b c = false → Qltb a c = false.
Proof.
  unfold Qltb. rewrite !negb_false_iff, !QArith_base.Qle_bool_iff.
  intros Hba Hcb. by apply (QArith_base.Qle_trans c b a).
Qed.

Lemma nearest_link_is_first_of_least_score_witness :
  ∃ k r, nearestOnRationals "down" twoBoxes = Z.of_nat k
         ∧ twoBoxes !! k = Some r.
Proof.
  destruct (nearest_link_is_first_of_least_score
              QArith_base.Qplus QArith_base.Qminus Qhalf Qabs.Qabs Qltb
              (λ x, QArith_base.Qle_bool (rational 0) x)
              (λ x, QArith_base.Qle_bool x (rational 0))
              (λ _, true)
              Qltb_irrefl Qltb_trans Qltb_incomparable
              "down" (rational 0) (rational 600) twoBoxes
              ltac:(discriminate) ltac:(reflexivity))
    as (k & r & Hk & Hr & _).
  exists k, r. by split.
Defined.

(** On [twoBoxes] ArrowDown starts at the second link (score 50 against
    200) and ArrowUp at the first (both score 100, the first one found
    stays). *)
Example nearest_link_examples :
  nearestOnRationals "down" twoBoxes = 1%Z
  ∧ nearestOnRationals "up" twoBoxes = 0%Z.
Proof. split; vm_compute; reflexivity. Qed.

(** ** The soft-key labels *)

Section SoftkeyFacts.
Context `{Platform}.

(** X26. With no overlay open, the centre label reads BACK exactly when no
    link is selected or focused in the reader and the history is not
    empty.  In that state Enter, with no link to open, changes nothing,
    while Backspace takes the last entry off the history. *)
Theorem centre_label_back_means_backspace (linkInPage : bool) (s : State) :
  overlayOpen s = false →
  (snd (fst (updateSoftkeyLabels linkInPage s)) = "BACK"
   ↔ selectedLinkIndex s = (-1)%Z ∧ linkInPage = false
     ∧ historyStack s ≠ [])
  ∧ (snd (fst (updateSoftkeyLabels linkInPage s)) = "BACK" →
     ∀ item, step s (EvEnter item None) = s
             ∧ historyStack (step s EvBackspace)
               = removelast (historyStack s)).
Proof.
  unfold overlayOpen. intros Hov.
  destruct (isMenuOpen s) eqn:Hm; [done|].
  destruct (isUrlBarOpen s) eqn:Hu; [done|].
  destruct (isAboutOpen s) eqn:Ha; [done|].
  assert (Hlabel : snd (fst (updateSoftkeyLabels linkInPage s)) = "BACK"
                   ↔ selectedLinkIndex s = (-1)%Z ∧ linkInPage = false
                     ∧ historyStack s ≠ []).
  { unfold updateSoftkeyLabels. rewrite Ha, Hu, Hm.
    destruct (selectedLinkIndex s =? -1)%Z eqn:Hsel; cbn.
    - apply Z.eqb_eq in Hsel. destruct linkInPage; cbn.
      + split; [discriminate|]. by intros (_ & ? & _).
      + destruct (historyStack s); cbn.
        * split; [discriminate|]. by intros (_ & _ & ?).
        * by split.
    - apply Z.eqb_neq in Hsel. split; [discriminate|]. by intros (? & _). }
  split; [exact Hlabel|].
  intros Hb item. apply Hlabel in Hb as (_ & _ & Hh).
  cbn [step]. rewrite Ha, Hu, Hm. split; [done|].
  unfold keydownBackspace. rewrite Ha, Hu, Hm.
  destruct (popHistory (historyStack s)) as [[top rest]|] eqn:Hp.
  - apply popHistory_Some in Hp as [_ ->].
    by destruct (loadPage_history top true
                   (set_historyStack (removelast (historyStack s)) s))
      as [->|(_ & ? & _)].
  - by apply popHistory_None in Hp.
Qed.
End SoftkeyFacts.

Lemma centre_label_back_means_backspace_witness :
  snd (fst (updateSoftkeyLabels false onSecondPage)) = "BACK"
  ∧ historyStack (@step refPlatform onSecondPage EvBackspace)
    = removelast (historyStack onSecondPage).
Proof.
  destruct (@centre_label_back_means_backspace refPlatform false onSecondPage
              eq_refl) as [Hlabel Hkeys].
  assert (Hb : snd (fst (updateSoftkeyLabels false onSecondPage)) = "BACK").
  { apply Hlabel. vm_compute. by repeat split. }
  split; [exact Hb|]. exact (proj2 (Hkeys Hb None)).
Defined.

(** ** The service worker *)

Lemma cachesMatch_In (url : string) (r : Response) (cs : CacheStorage) :
  cachesMatch url cs = Some r →
  ∃ name cache, In (name, cache) cs ∧ cache !! url = Some r.
Proof.
  induction cs as [|[name cache] cs IH]; [done|].
  cbn [cachesMatch]. destruct (cache !! url) as [r'|] eqn:Hl.
  - intros [= <-]. exists name, cache. split; [by left|done].
  - intros Hm. destruct (IH Hm) as (n & c & Hin & Hc).
    exists n, c. split; [by right|done].
Qed.

Lemma cachesMatch_is_Some (url : string) (r : Response) (name : string)
    (cache : gmap string Response) (cs : CacheStorage) :
  In (name, cache) cs → cache !! url = Some r →
  is_Some (cachesMatch url cs).
Proof.
  induction cs as [|[n c] cs IH]; [done|].
  cbn [cachesMatch]. intros [[= -> ->]|Hin] Hr.
  - by rewrite Hr.
  - destruct (c !! url); [done|by apply IH].
Qed.

Lemma onActivate_In (name : string) (cache : gmap string Response)
    (cs : CacheStorage) :
  In (name, cache) (onActivate cs) ↔ In (name, cache) cs ∧ name = CACHE_NAME.
Proof.
  unfold onActivate. rewrite filter_In. cbn [fst].
  by rewrite String.eqb_eq.
Qed.

(** X27. After activation only caches of the current version are left,
    and the entries of the current cache are all still served.  So a
    request that the worker then answers is answered by the network, or
    by an entry of the current cache stored under the request's URL or,
    the network having failed, under [/index.html]; never by an entry of
    an older cache.  A URL that the current cache holds is still found. *)
Theorem activation_retires_old_caches (cs : CacheStorage) :
  (∀ name cache, In (name, cache) (onActivate cs) → name = CACHE_NAME)
  ∧ (∀ method url network r toCache,
       onFetch method url network (onActivate cs) = Responded (Some r) toCache →
       network = Some r
       ∨ ∃ cache key,
           In (CACHE_NAME, cache) cs ∧ cache !! key = Some r
           ∧ (key = url ∨ key = "/index.html" ∧ network = None))
  ∧ (∀ url cache r,
       In (CACHE_NAME, cache) cs → cache !! url = Some r →
       is_Some (cachesMatch url (onActivate cs))).
Proof.
  split; [|split].
  - intros name cache Hin. by apply onActivate_In in Hin as [_ ?].
  - intros method url network r toCache. unfold onFetch.
    destruct (negb (method =? "GET")%string); [done|].
    destruct (cachesMatch url (onActivate cs)) as [r'|] eqn:Hm.
    + intros [= <- <-]. right.
      apply cachesMatch_In in Hm as (name & cache & Hin & Hc).
      apply onActivate_In in Hin as [Hin ->].
      exists cache, url. by repeat split; [| |left].
    + destruct network as [r'|].
      * destruct (negb (responseStatus r' =? 200)%Z || responseIsError r');
          intros [= <- <-]; by left.
      * intros [= Hi <-]. right.
        apply cachesMatch_In in Hi as (name & cache & Hin & Hc).
        apply onActivate_In in Hin as [Hin ->].
        exists cache, "/index.html". by repeat split; [| |right].
  - intros url cache r Hin Hr.
    apply (cachesMatch_is_Some url r CACHE_NAME cache); [|done].
    by apply onActivate_In.
Qed.

Lemma activation_retires_old_caches_witness :
  onFetch "GET" "/src/app.js" None (onActivate oldAndNewCaches)
  = Responded (Some (mkResponse 200 false "new script")) None
  ∧ (Some (mkResponse 200 false "new script") = None
     ∨ ∃ cache key,
         In (CACHE_NAME, cache) oldAndNewCaches
         ∧ cache !! key = Some (mkResponse 200 false "new script")
         ∧ (key = "/src/app.js" ∨ key = "/index.html" ∧ @None Response = None)).
Proof.
  split; [vm_compute; reflexivity|].
  destruct (activation_retires_old_caches oldAndNewCaches) as (_ & Hfetch & _).
  destruct (Hfetch "GET" "/src/app.js" None
              (mkResponse 200 false "new script") None
              ltac:(vm_compute; reflexivity)) as [Hn|Hc]; [discriminate|].
  right. exact Hc.
Defined.
